(** * A to-do list on a relational store: the data access module
      [app/actions.ts] and the page [app/page.tsx]

    The program is sequential glue around five SQL statements.  The
    development has three layers:

    - [Store]: the table [tasks] and the meaning of the five statements
      the program sends to it;
    - the server actions of [app/actions.ts], written in a small
      state-and-exception monad over a [World] (store, server clock, page
      state and the log of what happened, in order);
    - the handlers of the page component (embedded in the README).

    The store is PostgreSQL 14 (the README creates the instance with
    [--database-version=POSTGRES_14]); [Store] follows its rules for the
    column types and constraints that the [CREATE TABLE] of the program
    names: [SERIAL], [timestamp], [VARCHAR(n)], [NOT NULL], [PRIMARY KEY].

    Modelling conventions.  A string is a sequence of characters, one
    [ascii] per character; the character of code 0 is U+0000.  A
    [timestamp] of the store is an integer, a count of microseconds; a
    JavaScript [Date] is an integer, a count of milliseconds, and the
    store and the server process keep time in the same zone.  The store
    is reachable: connection failures are outside the model.  Calls run
    one after the other. *)

From Stdlib Require Import ZArith List String Ascii Bool Lia Permutation Sorted.
From Stdlib Require Import DecimalString DecimalPos.
Import ListNotations.

Local Open Scope string_scope.
Local Open Scope list_scope.
Local Open Scope Z_scope.

(** ** Results of awaited calls *)

(** The store's error classes that the five statements can raise. *)
Inductive SqlError : Type :=
| undefined_table                (* 42P01: relation "tasks" does not exist *)
| invalid_text_representation    (* 22P02: invalid input syntax for type integer *)
| numeric_value_out_of_range     (* 22003: value out of range for type integer *)
| string_data_right_truncation   (* 22001: value too long for type character varying(n) *)
| not_null_violation             (* 23502: null value in column violates not-null constraint *)
| unique_violation               (* 23505: duplicate key value violates unique constraint *)
| character_not_in_repertoire    (* 22021: invalid byte sequence for encoding: 0x00 *)
| sequence_generator_limit_exceeded.
                                 (* 2200H: nextval: reached maximum value of sequence *)

(** An awaited promise either resolves with a value or rejects. *)
Inductive Result (A : Type) : Type :=
| Ok (a : A)
| Throw (e : SqlError).
Arguments Ok {A} a.
Arguments Throw {A} e.

(** ** Strings *)

Fixpoint str_take (n : nat) (s : string) : string :=
  match n, s with
  | S n', String c s' => String c (str_take n' s')
  | _, _ => EmptyString
  end.

Fixpoint str_drop (n : nat) (s : string) : string :=
  match n, s with
  | S n', String _ s' => str_drop n' s'
  | _, _ => s
  end.

Fixpoint all_spaces (s : string) : bool :=
  match s with
  | EmptyString => true
  | String c s' => Ascii.eqb c " " && all_spaces s'
  end.

Fixpoint str_repeat (c : ascii) (n : nat) : string :=
  match n with
  | O => EmptyString
  | S n' => String c (str_repeat c n')
  end.

(** Does the string hold the character U+0000? *)
Fixpoint has_nul (s : string) : bool :=
  match s with
  | EmptyString => false
  | String c s' => (nat_of_ascii c =? 0)%nat || has_nul s'
  end.

(** ** The store *)

Module Store.

(** *** Values and rows *)

(** A SQL value of a character column or parameter: [None] is NULL. *)
Definition sqlval : Type := option string.

(** One row of
    [tasks(id SERIAL, created_at timestamp, status VARCHAR(255), title VARCHAR(1024))].
    NOT NULL is a constraint that INSERT and UPDATE check, not a property
    of the representation: [status] and [title] hold SQL values.  In the
    table [created_at] counts microseconds.  The same record serves for a
    row of a result as the client library hands it to the program, where
    [created_at] is a [Date] and counts milliseconds (see [parse_row]). *)
Record Row : Type := mkRow {
  id : Z;
  created_at : Z;
  status : sqlval;
  title : sqlval
}.

(** The relation [tasks] with the sequence [tasks_id_seq] that [SERIAL]
    creates with it: [last_value] is the last value drawn, 0 when none
    was.  [rows] is kept in insertion order. *)
Record Table : Type := mkTable {
  rows : list Row;
  last_value : Z
}.

(** The database: [None] while the relation [tasks] does not exist. *)
Definition DB : Type := option Table.

Definition rows_of (db : DB) : list Row :=
  match db with
  | Some t => rows t
  | None => []
  end.

Definition seq_of (db : DB) : Z :=
  match db with
  | Some t => last_value t
  | None => 0
  end.

(** *** Parameters and column types *)

(** A text parameter is read when it is bound to the statement, before
    anything else is done with it: a text that holds U+0000 is not valid
    in the encoding of the store and the statement is rejected. *)
Definition text_val (v : sqlval) : Result sqlval :=
  match v with
  | None => Ok None
  | Some s => if has_nul s then Throw character_not_in_repertoire else Ok v
  end.

Definition status_max : nat := 255.
Definition title_max : nat := 1024.

(** Assignment to a [VARCHAR(n)] column: a value of at most [n] characters
    is stored as it is; a longer one is an error unless every character
    beyond the [n]th is a space, in which case the value is cut to [n]
    characters (the rule of the SQL standard that the store follows). *)
Definition varchar (n : nat) (s : string) : Result string :=
  if (String.length s <=? n)%nat then Ok s
  else if all_spaces (str_drop n s) then Ok (str_take n s)
  else Throw string_data_right_truncation.

Definition varchar_val (n : nat) (v : sqlval) : Result sqlval :=
  match v with
  | None => Ok None
  | Some s =>
      match varchar n s with
      | Ok s' => Ok (Some s')
      | Throw e => Throw e
      end
  end.

(** Integer input of the store, for the text of a parameter compared with
    the [id] column: optional blanks, an optional sign, at least one
    decimal digit, optional blanks, and a value within 32 bits.  A value
    out of range is reported before what follows the digits is looked
    at. *)
Definition isspace (c : ascii) : bool :=
  let n := nat_of_ascii c in
  ((n =? 32) || ((9 <=? n) && (n <=? 13)))%nat.

Definition isdigit (c : ascii) : bool :=
  let n := nat_of_ascii c in
  ((48 <=? n) && (n <=? 57))%nat.

Fixpoint skip_spaces (s : string) : string :=
  match s with
  | String c s' => if isspace c then skip_spaces s' else s
  | EmptyString => s
  end.

Fixpoint read_digits (acc : Z) (s : string) : Z * string :=
  match s with
  | String c s' =>
      if isdigit c
      then read_digits (10 * acc + (Z.of_nat (nat_of_ascii c) - 48)) s'
      else (acc, s)
  | EmptyString => (acc, s)
  end.

Definition int4_max : Z := 2147483647.

Definition int4in (s : string) : Result Z :=
  let s1 := skip_spaces s in
  let '(neg, s2) :=
    match s1 with
    | String "-" r => (true, r)
    | String "+" r => (false, r)
    | _ => (false, s1)
    end in
  match s2 with
  | String c _ =>
      if isdigit c then
        let '(v, s3) := read_digits 0 s2 in
        if int4_max + 1 <? v then Throw numeric_value_out_of_range
        else
          match skip_spaces s3 with
          | EmptyString =>
              if neg then Ok (- v)
              else if v <=? int4_max then Ok v
                   else Throw numeric_value_out_of_range
          | String _ _ => Throw invalid_text_representation
          end
      else Throw invalid_text_representation
  | EmptyString => Throw invalid_text_representation
  end.

(** The text of an integer in decimal: what reaches the store when the
    page hands back the id of a listed row, which is a number. *)
Definition number_text (x : Z) : string :=
  NilZero.string_of_int (Z.to_int x).

(** A parameter compared with the [id] column, bound: its text is checked
    against the encoding and then read as an integer. *)
Definition int4_text (s : string) : Result Z :=
  if has_nul s then Throw character_not_in_repertoire else int4in s.

Definition int4_val (v : sqlval) : Result (option Z) :=
  match v with
  | None => Ok None
  | Some s =>
      match int4_text s with
      | Ok i => Ok (Some i)
      | Throw e => Throw e
      end
  end.

(** [id = $n]: a comparison with NULL is never true. *)
Definition id_is (i : option Z) (r : Row) : bool :=
  match i with
  | Some x => id r =? x
  | None => false
  end.

(** *** The statements *)

(** [CREATE TABLE IF NOT EXISTS tasks (...)]: an existing relation is left
    as it is (the store only emits a notice); otherwise the empty table
    and its sequence are created.  The sequence of a [SERIAL] column is a
    sequence of 32-bit integers: it gives 1, 2, ... up to [int4_max] and
    then no more. *)
Definition create_table_if_not_exists (db : DB) : Result (list Row) * DB :=
  match db with
  | Some _ => (Ok [], db)
  | None => (Ok [], Some (mkTable [] 0))
  end.

(** [PRIMARY KEY (id)]: is the key [i] already in the table? *)
Definition has_id (i : Z) (l : list Row) : bool :=
  existsb (fun r => id r =? i) l.

(** [INSERT INTO tasks(created_at, status, title) VALUES(NOW(), 'IN_PROGRESS', $1)].
    The parameter is read when it is bound, and fitted to [VARCHAR(1024)]
    when the statement is planned, before anything runs; then [id] takes
    the next value of the sequence, if there is one (a value drawn stays
    consumed if the row is rejected), and the not-null constraints and the
    primary key are checked on the new row. *)
Definition insert_task (now : Z) (p1 : sqlval) (db : DB) : Result (list Row) * DB :=
  match db with
  | None => (Throw undefined_table, db)
  | Some t =>
      match text_val p1 with
      | Throw e => (Throw e, db)
      | Ok v =>
          match varchar_val title_max v with
          | Throw e => (Throw e, db)
          | Ok ti =>
              if int4_max <=? last_value t
              then (Throw sequence_generator_limit_exceeded, db)
              else
                let i := last_value t + 1 in
                match ti with
                | None => (Throw not_null_violation, Some (mkTable (rows t) i))
                | Some _ =>
                    if has_id i (rows t)
                    then (Throw unique_violation, Some (mkTable (rows t) i))
                    else (Ok [],
                          Some (mkTable
                                  (rows t ++ [mkRow i now (Some "IN_PROGRESS") ti]) i))
                end
          end
      end
  end.

(** [ORDER BY created_at DESC]: insertion sort by decreasing [created_at].
    Rows with equal [created_at] come out in the order of the table; the
    store promises no particular order among them. *)
Fixpoint insert_desc (r : Row) (l : list Row) : list Row :=
  match l with
  | [] => [r]
  | x :: l' =>
      if created_at x <=? created_at r then r :: l
      else x :: insert_desc r l'
  end.

Definition order_by_created_at_desc (l : list Row) : list Row :=
  fold_right insert_desc [] l.

Definition list_limit : nat := 100.

(** [SELECT id, created_at, status, title FROM tasks
     ORDER BY created_at DESC LIMIT 100]. *)
Definition select_tasks (db : DB) : Result (list Row) * DB :=
  match db with
  | None => (Throw undefined_table, db)
  | Some t => (Ok (firstn list_limit (order_by_created_at_desc (rows t))), db)
  end.

Definition set_status_title (st ti : sqlval) (r : Row) : Row :=
  mkRow (id r) (created_at r) st ti.

(** [UPDATE tasks SET status = $1, title = $2 WHERE id = $3].
    The parameters are read when they are bound, in their order ([$1] and
    [$2] as texts, [$3] as an integer), and [$1] and [$2] are then fitted
    to [VARCHAR(255)] and [VARCHAR(1024)] when the statement is planned;
    the not-null constraints are checked on the rows that are rewritten.
    The key column is not assigned, so the rows keep their ids. *)
Definition update_task (p1 p2 p3 : sqlval) (db : DB) : Result (list Row) * DB :=
  match db with
  | None => (Throw undefined_table, db)
  | Some t =>
      match text_val p1 with
      | Throw e => (Throw e, db)
      | Ok v1 =>
      match text_val p2 with
      | Throw e => (Throw e, db)
      | Ok v2 =>
      match int4_val p3 with
      | Throw e => (Throw e, db)
      | Ok i =>
          match varchar_val status_max v1 with
          | Throw e => (Throw e, db)
          | Ok st =>
              match varchar_val title_max v2 with
              | Throw e => (Throw e, db)
              | Ok ti =>
                  if existsb (id_is i) (rows t) then
                    match st, ti with
                    | Some _, Some _ =>
                        (Ok [],
                         Some (mkTable
                                 (map (fun r => if id_is i r
                                                then set_status_title st ti r
                                                else r) (rows t))
                                 (last_value t)))
                    | _, _ => (Throw not_null_violation, db)
                    end
                  else (Ok [], db)
              end
          end
      end
      end
      end
  end.

(** [DELETE FROM tasks WHERE id = $1]: the parameter is read as an
    integer when it is bound. *)
Definition delete_task (p1 : sqlval) (db : DB) : Result (list Row) * DB :=
  match db with
  | None => (Throw undefined_table, db)
  | Some t =>
      match int4_val p1 with
      | Throw e => (Throw e, db)
      | Ok i =>
          (Ok [],
           Some (mkTable (filter (fun r => negb (id_is i r)) (rows t))
                         (last_value t)))
      end
  end.

(** The statements the program sends, with their parameters. *)
Inductive Stmt : Type :=
| CreateTableIfNotExists
| InsertTask (p1 : sqlval)
| SelectTasks
| UpdateTask (p1 p2 p3 : sqlval)
| DeleteTask (p1 : sqlval).

(** One statement executed at server time [now]: the rows of its result
    and the database afterwards. *)
Definition exec (now : Z) (s : Stmt) (db : DB) : Result (list Row) * DB :=
  match s with
  | CreateTableIfNotExists => create_table_if_not_exists db
  | InsertTask p1 => insert_task now p1 db
  | SelectTasks => select_tasks db
  | UpdateTask p1 p2 p3 => update_task p1 p2 p3 db
  | DeleteTask p1 => delete_task p1 db
  end.

End Store.

(** ** The world and the monad of awaited calls *)

(** The type [Task] that [actions.ts] and the page share. *)
Inductive Status : Type := IN_PROGRESS | COMPLETE.

Module Task.
Record t : Type := mk {
  id : string;
  title : string;
  status : Status
}.
End Task.

(** [Partial<Task>] *)
Module PartialTask.
Record t : Type := mk {
  id : option string;
  title : option string;
  status : option Status
}.
End PartialTask.

(** The text of a status literal, as it is sent to the store. *)
Definition status_text (s : Status) : string :=
  match s with
  | IN_PROGRESS => "IN_PROGRESS"
  | COMPLETE => "COMPLETE"
  end.

(** What happens, in the order it happens. *)
Inductive Event : Type :=
| Query (s : Store.Stmt) (r : Result (list Store.Row))
| PreventDefault
| SetTasks (l : list Store.Row)
| SetNewTaskTitle (s : string).

Record World : Type := mkWorld {
  store : Store.DB;               (* behind [pool] *)
  clock : Z;                      (* what NOW() reads, in microseconds *)
  newTaskTitle : string;          (* state of the page component *)
  tasks : list Store.Row;         (* state of the page component *)
  log : list Event
}.

Definition M (A : Type) : Type := World -> Result A * World.

Definition ret {A} (a : A) : M A := fun w => (Ok a, w).

(** [await]: a rejected promise ends the function that awaits it. *)
Definition bind {A B} (m : M A) (k : A -> M B) : M B :=
  fun w =>
    match m w with
    | (Ok a, w') => k a w'
    | (Throw e, w') => (Throw e, w')
    end.

Declare Scope action_scope.
Delimit Scope action_scope with action.
Notation "x <- m ;; k" := (bind m (fun x => k))
  (at level 61, m at next level, right associativity) : action_scope.
Notation "m ;; k" := (bind m (fun _ => k))
  (at level 61, right associativity) : action_scope.
Local Open Scope action_scope.

Definition record (e : Event) (w : World) : World :=
  mkWorld (store w) (clock w) (newTaskTitle w) (tasks w) (log w ++ [e]).

(** The client library parses the columns of every row of a result: an
    integer to a number, a text to a string, and a [timestamp] to a
    [Date], which keeps the milliseconds and drops what is below. *)
Definition parse_timestamp (t : Z) : Z := t / 1000.

Definition parse_row (r : Store.Row) : Store.Row :=
  Store.mkRow (Store.id r) (parse_timestamp (Store.created_at r))
              (Store.status r) (Store.title r).

Definition parse_result (r : Result (list Store.Row)) : Result (list Store.Row) :=
  match r with
  | Ok l => Ok (map parse_row l)
  | Throw e => Throw e
  end.

(** [pool.query(text, params)], awaited: the statement runs on the store,
    and the promise settles with the parsed rows of the result or the
    error. *)
Definition pool_query (s : Store.Stmt) : M (list Store.Row) :=
  fun w =>
    let '(r, db) := Store.exec (clock w) s (store w) in
    (parse_result r,
     record (Query s (parse_result r))
       (mkWorld db (clock w) (newTaskTitle w) (tasks w) (log w))).

(** ** [app/actions.ts] *)

Definition tableCreationIfDoesNotExist : M unit :=
  _ <- pool_query Store.CreateTableIfNotExists ;;
  ret tt.

(* CREATE *)
Definition addNewTaskToDatabase (newTask : string) : M unit :=
  tableCreationIfDoesNotExist ;;
  _ <- pool_query (Store.InsertTask (Some newTask)) ;;
  ret tt.

(* READ *)
Definition getTasksFromDatabase : M (list Store.Row) :=
  tableCreationIfDoesNotExist ;;
  rows <- pool_query Store.SelectTasks ;;
  ret rows.

(* UPDATE *)
Definition updateTaskInDatabase (task : Task.t) : M unit :=
  tableCreationIfDoesNotExist ;;
  _ <- pool_query (Store.UpdateTask (Some (status_text (Task.status task)))
                                    (Some (Task.title task))
                                    (Some (Task.id task))) ;;
  ret tt.

(* DELETE *)
Definition deleteTaskFromDatabase (taskId : string) : M unit :=
  tableCreationIfDoesNotExist ;;
  _ <- pool_query (Store.DeleteTask (Some taskId)) ;;
  ret tt.

(** ** [app/page.tsx] *)

Definition preventDefault : M unit :=
  fun w => (Ok tt, record PreventDefault w).

Definition setTasks (l : list Store.Row) : M unit :=
  fun w => (Ok tt, record (SetTasks l)
                     (mkWorld (store w) (clock w) (newTaskTitle w) l (log w))).

Definition setNewTaskTitle (s : string) : M unit :=
  fun w => (Ok tt, record (SetNewTaskTitle s)
                     (mkWorld (store w) (clock w) s (tasks w) (log w))).

Definition getTasks : M unit :=
  updatedListOfTasks <- getTasksFromDatabase ;;
  setTasks updatedListOfTasks.

(** The handler reads [newTaskTitle] as the page holds it when the form is
    submitted. *)
Definition handleSubmit : M unit :=
  fun w =>
    (preventDefault ;;
     addNewTaskToDatabase (newTaskTitle w) ;;
     getTasks ;;
     setNewTaskTitle "") w.

(** [{ ...task, ...newTaskValues }] *)
Definition spread (task : Task.t) (newTaskValues : PartialTask.t) : Task.t :=
  Task.mk
    (match PartialTask.id newTaskValues with Some x => x | None => Task.id task end)
    (match PartialTask.title newTaskValues with Some x => x | None => Task.title task end)
    (match PartialTask.status newTaskValues with Some x => x | None => Task.status task end).

Definition updateTask (task : Task.t) (newTaskValues : PartialTask.t) : M unit :=
  updateTaskInDatabase (spread task newTaskValues) ;;
  getTasks.

Definition deleteTask (taskId : string) : M unit :=
  deleteTaskFromDatabase taskId ;;
  getTasks.

(** ** Histories *)

(** A call of the data access module. *)
Inductive Call : Type :=
| EnsureSchema
| AddTask (title : string)
| ListTasks
| UpdateTaskCall (task : Task.t)
| DeleteTaskCall (taskId : string).

Definition call (c : Call) : M unit :=
  match c with
  | EnsureSchema => tableCreationIfDoesNotExist
  | AddTask title => addNewTaskToDatabase title
  | ListTasks => _ <- getTasksFromDatabase ;; ret tt
  | UpdateTaskCall task => updateTaskInDatabase task
  | DeleteTaskCall taskId => deleteTaskFromDatabase taskId
  end.

Definition at_time (now : Z) (w : World) : World :=
  mkWorld (store w) now (newTaskTitle w) (tasks w) (log w).

(** A history: calls, each made when the server clock reads the given
    time.  A call that throws leaves the world as it was when it threw. *)
Fixpoint run (h : list (Z * Call)) (w : World) : World :=
  match h with
  | [] => w
  | (now, c) :: h' => run h' (snd (call c (at_time now w)))
  end.

(** A fresh deployment: no table yet. *)
Definition world0 : World := mkWorld None 0 "" [] [].

(** Adding the given titles one after the other, each at its time; stops
    at the first insert that throws. *)
Fixpoint add_all (l : list (Z * string)) : M unit :=
  match l with
  | [] => ret tt
  | (now, title) :: l' =>
      (fun w => addNewTaskToDatabase title (at_time now w)) ;;
      add_all l'
  end.

(** ** [app/page.tsx]: what the page renders, and its events *)

(** [useEffect(() => { getTasks(); }, [])]: the list is fetched once, when
    the page is mounted. *)
Definition useEffect : M unit := getTasks.

(** [onChange={(e) => setNewTaskTitle(e.target.value)}] of the text
    input. *)
Definition onChange (value : string) : M unit := setNewTaskTitle value.

(** One [<tr>] of the table, as [tasks.map] builds it from a task: its
    key, the checkbox (checked or not, and what a click on it does), the
    title (struck through or not), and what a click on the button does. *)
Record Tr : Type := mkTr {
  key : string;
  checked : bool;
  line_through : bool;
  text : string;
  onClick_checkbox : M unit;
  onClick_button : M unit
}.

Definition tr (task : Task.t) : Tr :=
  let isComplete :=
    match Task.status task with
    | COMPLETE => true
    | IN_PROGRESS => false
    end in
  mkTr (Task.id task)
       isComplete
       isComplete
       (Task.title task)
       (updateTask task
          (PartialTask.mk None None
             (Some (if isComplete then IN_PROGRESS else COMPLETE))))
       (deleteTask (Task.id task)).

(** The text of a status, read back. *)
Definition status_of_text (s : string) : option Status :=
  if String.eqb s "IN_PROGRESS" then Some IN_PROGRESS
  else if String.eqb s "COMPLETE" then Some COMPLETE
  else None.

(** The page holds the rows of a listing at the type [Task[]].  A row seen
    at the type [Task], when it has that type: a title and one of the two
    statuses.  Its [id] is a number; it is the key of its [<tr>] and goes
    back to the store as its decimal text. *)
Definition shown (r : Store.Row) : option Task.t :=
  match Store.status r, Store.title r with
  | Some st, Some ti =>
      match status_of_text st with
      | Some s => Some (Task.mk (Store.number_text (Store.id r)) ti s)
      | None => None
      end
  | _, _ => None
  end.

(** The rows of a listing at the type [Task[]], when every one of them has
    the type [Task]. *)
Fixpoint as_tasks (l : list Store.Row) : option (list Task.t) :=
  match l with
  | [] => Some []
  | r :: l' =>
      match shown r, as_tasks l' with
      | Some task, Some ts => Some (task :: ts)
      | _, _ => None
      end
  end.

(** [<tbody>{tasks.map(...)}</tbody>]: one [<tr>] per element of [tasks],
    in the order of [tasks]. *)
Definition tbody (w : World) : option (list Tr) :=
  option_map (map tr) (as_tasks (tasks w)).

(** What a user of the page can do. *)
Inductive PageEvent : Type :=
| Mount
| Change (value : string)
| Submit
| ClickCheckbox (task : Task.t)
| ClickDelete (task : Task.t).

Definition handle (e : PageEvent) : M unit :=
  match e with
  | Mount => useEffect
  | Change value => onChange value
  | Submit => handleSubmit
  | ClickCheckbox task => onClick_checkbox (tr task)
  | ClickDelete task => onClick_button (tr task)
  end.

(** A session on the page: events, each handled when the server clock
    reads the given time, one after the other. *)
Fixpoint session (h : list (Z * PageEvent)) (w : World) : World :=
  match h with
  | [] => w
  | (now, e) :: h' => session h' (snd (handle e (at_time now w)))
  end.

(** * Notions used to state and prove the properties *)

Import Store.

(** ** On the store *)

(** The database once [CREATE TABLE IF NOT EXISTS] has run. *)
Definition ensure (db : DB) : DB := snd (create_table_if_not_exists db).

Definition table_of (db : DB) : Table :=
  match db with
  | Some t => t
  | None => mkTable [] 0
  end.

(** Orders on rows by time of creation. *)
Definition newer_or_same (a b : Row) : Prop := created_at b <= created_at a.
Definition newer (a b : Row) : Prop := created_at b < created_at a.

(** The rows that the [SELECT] of the program finds in the database, and
    the rows a listing of the database gives: the rows found, parsed. *)
Definition selected (db : DB) : list Row :=
  firstn list_limit (order_by_created_at_desc (rows_of db)).

Definition listing (db : DB) : list Row := map parse_row (selected db).

(** The store fixes the order of a listing only up to rows with the same
    [created_at].  [admissible_listing l rs] says that [rs] is the first
    100 rows of some arrangement of [l] by decreasing [created_at]; the
    rows found by [select_tasks] are one of them.  [admissible_rows l out]
    says that [out] is what the program receives for one of them. *)
Definition admissible_listing (l rs : list Row) : Prop :=
  exists s,
    Permutation s l /\ StronglySorted newer_or_same s /\ rs = firstn list_limit s.

Definition admissible_rows (l out : list Row) : Prop :=
  exists rs, admissible_listing l rs /\ out = map parse_row rs.

(** What the store makes of the text sent as a title, and of the
    parameters of an update: the values it will use, or the error. *)
Definition title_in (s : string) : Result string :=
  if has_nul s then Throw character_not_in_repertoire else varchar title_max s.

Definition update_params (task : Task.t) : Result (Z * string) :=
  if has_nul (Task.title task) then Throw character_not_in_repertoire
  else
    match int4_text (Task.id task) with
    | Throw e => Throw e
    | Ok x =>
        match varchar title_max (Task.title task) with
        | Throw e => Throw e
        | Ok ti => Ok (x, ti)
        end
    end.

(** What [UPDATE] does to one row, for the id [x]. *)
Definition rewrite_row (x : Z) (st : Status) (ti : string) (r : Row) : Row :=
  if id r =? x
  then set_status_title (Some (status_text st)) (Some ti) r
  else r.

(** The ids of the table increase along it and were all drawn from the
    sequence. *)
Definition ids_ok (db : DB) : Prop :=
  StronglySorted Z.lt (map id (rows_of db)) /\
  0 <= seq_of db /\
  Forall (fun r => 0 < id r <= seq_of db) (rows_of db).

(** A row as the data model wants it: one of the two statuses, and a
    title. *)
Definition row_valid (r : Row) : Prop :=
  (status r = Some "IN_PROGRESS" \/ status r = Some "COMPLETE") /\
  title r <> None.

(** The value of a decimal numeral read from the left, from [acc]. *)
Fixpoint uint_value (acc : Z) (d : Decimal.uint) : Z :=
  match d with
  | Decimal.Nil => acc
  | Decimal.D0 l => uint_value (10 * acc + 0) l
  | Decimal.D1 l => uint_value (10 * acc + 1) l
  | Decimal.D2 l => uint_value (10 * acc + 2) l
  | Decimal.D3 l => uint_value (10 * acc + 3) l
  | Decimal.D4 l => uint_value (10 * acc + 4) l
  | Decimal.D5 l => uint_value (10 * acc + 5) l
  | Decimal.D6 l => uint_value (10 * acc + 6) l
  | Decimal.D7 l => uint_value (10 * acc + 7) l
  | Decimal.D8 l => uint_value (10 * acc + 8) l
  | Decimal.D9 l => uint_value (10 * acc + 9) l
  end.

(** ** On the actions *)

(** A [Result] with its value dropped: what a function that ends in a bare
    [return] resolves with. *)
Definition void {A} (r : Result A) : Result unit :=
  match r with
  | Ok _ => Ok tt
  | Throw e => Throw e
  end.

(** The world after some queries: a new database and more log. *)
Definition settled (w : World) (db : DB) (evs : list Event) : World :=
  mkWorld db (clock w) (newTaskTitle w) (tasks w) (log w ++ evs).

(** The statement [updateTaskInDatabase] sends. *)
Definition update_stmt (task : Task.t) : Stmt :=
  UpdateTask (Some (status_text (Task.status task)))
             (Some (Task.title task)) (Some (Task.id task)).

(** The shape of the three mutating actions: ensure the table, send one
    statement, return. *)
Definition mutation (s : Stmt) : M unit :=
  tableCreationIfDoesNotExist ;;
  _ <- pool_query s ;;
  ret tt.

(** The statement of a call, the database after the call, and how the call
    settles. *)
Definition stmt_of (c : Call) : Stmt :=
  match c with
  | EnsureSchema => CreateTableIfNotExists
  | AddTask title => InsertTask (Some title)
  | ListTasks => SelectTasks
  | UpdateTaskCall task => update_stmt task
  | DeleteTaskCall taskId => DeleteTask (Some taskId)
  end.

Definition step (now : Z) (c : Call) (db : DB) : DB :=
  snd (exec now (stmt_of c) (ensure db)).

Definition outcome (now : Z) (c : Call) (db : DB) : Result unit :=
  void (fst (exec now (stmt_of c) (ensure db))).

Fixpoint steps (h : list (Z * Call)) (db : DB) : DB :=
  match h with
  | [] => db
  | (now, c) :: h' => steps h' (step now c db)
  end.

Definition is_schema_call (x : Z * Call) : bool :=
  match snd x with
  | EnsureSchema => true
  | _ => false
  end.

(** A history with its schema calls taken out. *)
Definition without_schema_calls (h : list (Z * Call)) : list (Z * Call) :=
  filter (fun x => negb (is_schema_call x)) h.

(** ** Sample worlds and histories *)

(** A world with two tasks. *)
Definition two_tasks : World :=
  run [(10, AddTask "a"); (20, AddTask "b")] world0.

(** 150 tasks added one per millisecond. *)
Definition sample_adds : list (Z * string) :=
  map (fun n => (1000 * Z.of_nat n, "task")) (seq 1 150).

(** A history with an insert that the store rejects, a delete and an
    update. *)
Definition sample_history : list (Z * Call) :=
  [(10, AddTask "a"); (20, AddTask "b"); (22, AddTask (str_repeat "x" 1025));
   (25, DeleteTaskCall "2"); (30, UpdateTaskCall (Task.mk "1" "A" COMPLETE))].

(** ** Further notions *)

(** What [UPDATE] and [DELETE] make of the rows, given the task or the id
    of the call: nothing when the store rejects a parameter. *)
Definition updated_rows (task : Task.t) (l : list Row) : list Row :=
  match update_params task with
  | Ok (x, ti) => map (rewrite_row x (Task.status task) ti) l
  | Throw _ => l
  end.

Definition deleted_rows (taskId : string) (l : list Row) : list Row :=
  match int4_text taskId with
  | Ok x => filter (fun r => negb (id r =? x)) l
  | Throw _ => l
  end.

(** The other status. *)
Definition other_status (s : Status) : Status :=
  match s with
  | IN_PROGRESS => COMPLETE
  | COMPLETE => IN_PROGRESS
  end.

(** The stored texts are within the bounds of their columns, and a stored
    title is a text the store reads. *)
Definition row_bounded (r : Row) : Prop :=
  (forall st, status r = Some st -> (String.length st <= status_max)%nat) /\
  (forall ti, title r = Some ti -> (String.length ti <= title_max)%nat) /\
  (forall ti, title r = Some ti -> has_nul ti = false).

(** What holds of the store along every history and every session. *)
Definition store_ok (db : DB) : Prop :=
  ids_ok db /\ Forall row_valid (rows_of db) /\ Forall row_bounded (rows_of db) /\
  seq_of db <= int4_max.

(** One [<tr>] for one listed row. *)
Definition row_rendered (r : Row) (t : Tr) : Prop :=
  key t = number_text (id r) /\
  title r = Some (text t) /\
  (checked t = true <-> status r = Some "COMPLETE") /\
  (checked t = false <-> status r = Some "IN_PROGRESS") /\
  line_through t = checked t.

(** The call of the data access module that the handler of an event
    awaits first, if any. *)
Definition call_of (e : PageEvent) (w : World) : option Call :=
  match e with
  | Mount => Some ListTasks
  | Change _ => None
  | Submit => Some (AddTask (newTaskTitle w))
  | ClickCheckbox task =>
      Some (UpdateTaskCall
              (Task.mk (Task.id task) (Task.title task)
                       (other_status (Task.status task))))
  | ClickDelete task => Some (DeleteTaskCall (Task.id task))
  end.

(** A session: the page is mounted, and two titles are typed and
    submitted. *)
Definition sample_session : list (Z * PageEvent) :=
  [(1000, Mount); (5000, Change "Buy milk"); (10000, Submit);
   (20000, Change "Walk"); (30000, Submit)].

(** * Facts about the store *)

Lemma str_take_length (n : nat) (s : string) :
  (n <= String.length s)%nat -> String.length (str_take n s) = n.
Proof.
  revert s; induction n as [|n IH]; intros [|c s] H; simpl in *; try lia.
  rewrite IH; lia.
Qed.

Lemma str_repeat_length (c : ascii) (n : nat) :
  String.length (str_repeat c n) = n.
Proof. induction n; simpl; congruence. Qed.

(** **** Fitting a value to [VARCHAR(n)] *)

Lemma varchar_fits (n : nat) (s : string) :
  (String.length s <= n)%nat -> varchar n s = Ok s.
Proof.
  intros H. unfold varchar.
  destruct (Nat.leb_spec (String.length s) n); [reflexivity | lia].
Qed.

Lemma varchar_overflow (n : nat) (s : string) :
  (n < String.length s)%nat ->
  all_spaces (str_drop n s) = false ->
  varchar n s = Throw string_data_right_truncation.
Proof.
  intros H Hsp. unfold varchar.
  destruct (Nat.leb_spec (String.length s) n); [lia | now rewrite Hsp].
Qed.

Lemma varchar_blank_tail (n : nat) (s : string) :
  (n < String.length s)%nat ->
  all_spaces (str_drop n s) = true ->
  varchar n s = Ok (str_take n s).
Proof.
  intros H Hsp. unfold varchar.
  destruct (Nat.leb_spec (String.length s) n); [lia | now rewrite Hsp].
Qed.

Lemma varchar_bound (n : nat) (s s' : string) :
  varchar n s = Ok s' -> (String.length s' <= n)%nat.
Proof.
  unfold varchar.
  destruct (Nat.leb_spec (String.length s) n) as [Hle|Hlt].
  - intros [= <-]. exact Hle.
  - destruct (all_spaces (str_drop n s)); [|discriminate].
    intros [= <-]. rewrite str_take_length; lia.
Qed.

Lemma varchar_examples :
  varchar 3 "ab" = Ok "ab" /\
  varchar 3 "abc" = Ok "abc" /\
  varchar 3 "abcd" = Throw string_data_right_truncation /\
  varchar 3 "abc  " = Ok "abc" /\
  varchar 3 "ab c " = Throw string_data_right_truncation.
Proof. repeat split. Qed.

(** **** Integer input *)

Lemma int4in_examples :
  int4in "42" = Ok 42 /\
  int4in "  +42 " = Ok 42 /\
  int4in "-7" = Ok (-7) /\
  int4in "007" = Ok 7 /\
  int4in "" = Throw invalid_text_representation /\
  int4in "abc" = Throw invalid_text_representation /\
  int4in "4 2" = Throw invalid_text_representation /\
  int4in "4.2" = Throw invalid_text_representation /\
  int4in "2147483647" = Ok 2147483647 /\
  int4in "2147483648" = Throw numeric_value_out_of_range /\
  int4in "-2147483648" = Ok (-2147483648) /\
  int4in "99999999999x" = Throw numeric_value_out_of_range.
Proof. repeat split. Qed.

(** **** Texts that hold U+0000 *)

Lemma isspace_not_nul (c : ascii) :
  isspace c = true -> (nat_of_ascii c =? 0)%nat = false.
Proof.
  unfold isspace. cbv zeta. intros H.
  destruct (nat_of_ascii c =? 0)%nat eqn:E; [|reflexivity].
  apply Nat.eqb_eq in E. rewrite E in H. discriminate H.
Qed.

Lemma isdigit_not_nul (c : ascii) :
  isdigit c = true -> (nat_of_ascii c =? 0)%nat = false.
Proof.
  unfold isdigit. cbv zeta. intros H.
  destruct (nat_of_ascii c =? 0)%nat eqn:E; [|reflexivity].
  apply Nat.eqb_eq in E. rewrite E in H. discriminate H.
Qed.

Lemma skip_spaces_nul (s : string) : has_nul (skip_spaces s) = has_nul s.
Proof.
  induction s as [|c s IH]; [reflexivity|]. cbn [skip_spaces].
  destruct (isspace c) eqn:E; [|reflexivity].
  cbn [has_nul]. now rewrite (isspace_not_nul c E), IH.
Qed.

Lemma read_digits_nul (acc : Z) (s : string) :
  has_nul (snd (read_digits acc s)) = has_nul s.
Proof.
  revert acc. induction s as [|c s IH]; intros acc; [reflexivity|].
  cbn [read_digits]. destruct (isdigit c) eqn:E; [|reflexivity].
  cbn [has_nul]. now rewrite (isdigit_not_nul c E), IH.
Qed.

(** A text that reads as an integer does not hold U+0000. *)
Lemma int4in_no_nul (s : string) (x : Z) : int4in s = Ok x -> has_nul s = false.
Proof.
  unfold int4in. rewrite <- (skip_spaces_nul s).
  generalize (skip_spaces s). intros s1.
  assert (Hsign : has_nul (snd (match s1 with
                                | String "-" r => (true, r)
                                | String "+" r => (false, r)
                                | _ => (false, s1)
                                end)) = has_nul s1).
  { destruct s1 as [|[[] [] [] [] [] [] [] []] r]; reflexivity. }
  revert Hsign.
  match goal with
  | |- context [let '(_, _) := ?X in _] => destruct X as [neg s2]
  end.
  cbn [snd]. intros <-.
  destruct s2 as [|c r]; [discriminate|]. destruct (isdigit c); [|discriminate].
  pose proof (read_digits_nul 0 (String c r)) as Hd.
  destruct (read_digits 0 (String c r)) as [v s3]. cbn [snd] in Hd. rewrite <- Hd.
  destruct (_ <? _); [discriminate|].
  rewrite <- (skip_spaces_nul s3). destruct (skip_spaces s3); [reflexivity | discriminate].
Qed.

Lemma int4_text_ok (s : string) (x : Z) : int4_text s = Ok x <-> int4in s = Ok x.
Proof.
  unfold int4_text. split.
  - destruct (has_nul s); [discriminate | auto].
  - intros H. now rewrite (int4in_no_nul s x H).
Qed.

Lemma int4_text_errors (s : string) (e : SqlError) :
  int4_text s = Throw e ->
  (has_nul s = true /\ e = character_not_in_repertoire) \/
  (has_nul s = false /\ int4in s = Throw e).
Proof.
  unfold int4_text. destruct (has_nul s); [intros [= <-]; now left | now right].
Qed.

Lemma int4_text_examples :
  int4_text "42" = Ok 42 /\
  int4_text "abc" = Throw invalid_text_representation /\
  int4_text (String "2" (String zero "")) = Throw character_not_in_repertoire /\
  int4in (String "2" (String zero "")) = Throw invalid_text_representation.
Proof. repeat split. Qed.

Lemma title_in_fits (s : string) :
  has_nul s = false -> (String.length s <= title_max)%nat -> title_in s = Ok s.
Proof. intros Hnul Hfit. unfold title_in. now rewrite Hnul, varchar_fits. Qed.

Lemma str_take_nul (n : nat) (s : string) :
  has_nul s = false -> has_nul (str_take n s) = false.
Proof.
  revert s. induction n as [|n IH]; intros [|c s]; try reflexivity.
  cbn [has_nul str_take]. intros H. apply orb_false_iff in H. destruct H as [-> H].
  now rewrite IH.
Qed.

Lemma title_in_bound (s s' : string) :
  title_in s = Ok s' -> (String.length s' <= title_max)%nat /\ has_nul s' = false.
Proof.
  unfold title_in. destruct (has_nul s) eqn:E; [discriminate|]. intros H.
  split; [eapply varchar_bound, H|].
  unfold varchar in H. destruct (_ <=? _)%nat.
  - now injection H as <-.
  - destruct (all_spaces _); [|discriminate].
    assert (E' : s' = str_take title_max s) by congruence.
    rewrite E'. now apply str_take_nul.
Qed.

(** **** What the client library makes of a row *)

Lemma parse_rows_ids (l : list Row) : map id (map parse_row l) = map id l.
Proof. rewrite map_map. now apply map_ext. Qed.

Lemma parse_rows_times (l : list Row) :
  map created_at (map parse_row l) = map parse_timestamp (map created_at l).
Proof. now rewrite !map_map. Qed.

Lemma parse_timestamp_mono (a b : Z) : a <= b -> parse_timestamp a <= parse_timestamp b.
Proof. intros H. unfold parse_timestamp. apply Z.div_le_mono; lia. Qed.

Lemma parse_rows_sorted (s : list Row) :
  StronglySorted newer_or_same s -> StronglySorted newer_or_same (map parse_row s).
Proof.
  induction 1 as [|a s Hs IH Ha]; simpl; constructor; [exact IH|].
  rewrite Forall_forall in *. intros y Hy.
  apply in_map_iff in Hy. destruct Hy as (r & <- & Hr).
  unfold newer_or_same, parse_row. cbn [created_at].
  apply parse_timestamp_mono. now apply Ha.
Qed.

(** **** Integer input reads back the decimal text of an id *)

Lemma read_digits_uint (d : Decimal.uint) (acc : Z) :
  read_digits acc (NilEmpty.string_of_uint d) = (uint_value acc d, "").
Proof.
  revert acc. induction d; intros acc; cbn [NilEmpty.string_of_uint uint_value];
    [reflexivity | ..]; cbn [read_digits]; apply IHd.
Qed.

Lemma of_uint_acc_value (d : Decimal.uint) (p : positive) :
  Z.pos (Pos.of_uint_acc d p) = uint_value (Z.pos p) d.
Proof.
  revert p. induction d; intros p; cbn [Pos.of_uint_acc uint_value];
    [reflexivity | ..]; rewrite IHd; f_equal; lia.
Qed.

Lemma of_uint_value (d : Decimal.uint) :
  Z.of_N (Pos.of_uint d) = uint_value 0 d.
Proof.
  induction d; cbn [Pos.of_uint uint_value]; [reflexivity | exact IHd | ..];
    cbn [Z.of_N]; rewrite of_uint_acc_value; reflexivity.
Qed.

Lemma int4in_number_text (x : Z) :
  0 < x <= int4_max -> int4in (number_text x) = Ok x.
Proof.
  intros Hx. destruct x as [|p|p]; try lia.
  unfold number_text. cbn [Z.to_int NilZero.string_of_int].
  pose proof (Unsigned.of_to p) as Hval.
  pose proof (Unsigned.to_uint_nonnil p) as Hnn.
  apply (f_equal Z.of_N) in Hval. rewrite of_uint_value in Hval. cbn [Z.of_N] in Hval.
  unfold NilZero.string_of_uint.
  destruct (Pos.to_uint p) as [|l|l|l|l|l|l|l|l|l|l]; [congruence|..];
    unfold int4in; cbn [NilEmpty.string_of_uint skip_spaces] in *;
    cbv [isspace isdigit nat_of_ascii]; simpl;
    rewrite read_digits_uint; simpl in Hval; rewrite Hval;
    cbn [skip_spaces]; unfold int4_max in *;
    (destruct (Z.ltb_spec 2147483648 (Z.pos p)); [lia|]);
    (destruct (Z.leb_spec (Z.pos p) 2147483647); [reflexivity | lia]).
Qed.

(** **** [ORDER BY created_at DESC] *)

Lemma insert_desc_perm (r : Row) (l : list Row) :
  Permutation (insert_desc r l) (r :: l).
Proof.
  induction l as [|x l IH]; simpl.
  - apply Permutation_refl.
  - destruct (created_at x <=? created_at r).
    + apply Permutation_refl.
    + eapply perm_trans; [apply perm_skip, IH | apply perm_swap].
Qed.

Lemma order_by_perm (l : list Row) :
  Permutation (order_by_created_at_desc l) l.
Proof.
  induction l as [|x l IH]; simpl.
  - constructor.
  - eapply perm_trans; [apply insert_desc_perm | now apply perm_skip].
Qed.

Lemma insert_desc_sorted (r : Row) (l : list Row) :
  StronglySorted newer_or_same l ->
  StronglySorted newer_or_same (insert_desc r l).
Proof.
  induction 1 as [|x l Hs IH Hx]; simpl.
  - repeat constructor.
  - destruct (Z.leb_spec (created_at x) (created_at r)) as [Hle|Hlt].
    + constructor; [now constructor|].
      constructor; [exact Hle|].
      eapply Forall_impl; [|exact Hx].
      unfold newer_or_same; intros; lia.
    + constructor; [exact IH|].
      eapply Permutation_Forall; [apply Permutation_sym, insert_desc_perm|].
      constructor; [unfold newer_or_same; lia | exact Hx].
Qed.

Lemma order_by_sorted (l : list Row) :
  StronglySorted newer_or_same (order_by_created_at_desc l).
Proof.
  induction l as [|x l IH]; simpl.
  - constructor.
  - now apply insert_desc_sorted.
Qed.

(** With pairwise distinct keys, a descending list is strictly descending. *)
Lemma sorted_distinct_strict (l : list Row) :
  StronglySorted newer_or_same l ->
  NoDup (map created_at l) ->
  StronglySorted newer l.
Proof.
  induction 1 as [|x l Hs IH Hx]; intros Hnd; simpl in *.
  - constructor.
  - inversion Hnd as [|? ? Hnotin Hnd']; subst.
    constructor; [now apply IH|].
    rewrite Forall_forall in *. intros y Hy.
    specialize (Hx y Hy). unfold newer, newer_or_same in *.
    assert (created_at y <> created_at x).
    { intros E. apply Hnotin. rewrite <- E. now apply in_map. }
    lia.
Qed.

Lemma StronglySorted_firstn {A} (R : A -> A -> Prop) (n : nat) (l : list A) :
  StronglySorted R l -> StronglySorted R (firstn n l).
Proof.
  intros H; revert n; induction H as [|x l Hs IH Hx]; intros [|n]; simpl;
    try constructor.
  - apply IH.
  - rewrite Forall_forall in *. intros y Hy. apply Hx.
    rewrite <- (firstn_skipn n l). apply in_or_app. now left.
Qed.

(** What the limit cuts off is not newer than anything it keeps. *)
Lemma sorted_cut (n : nat) (l : list Row) :
  StronglySorted newer_or_same l ->
  forall a b, In a (firstn n l) -> In b (skipn n l) -> newer_or_same a b.
Proof.
  intros H; revert n; induction H as [|x l Hs IH Hx]; intros [|n] a b Ha Hb;
    simpl in *; try contradiction.
  destruct Ha as [<-|Ha].
  - rewrite Forall_forall in Hx. apply Hx.
    rewrite <- (firstn_skipn n l). apply in_or_app. now right.
  - eapply IH; eassumption.
Qed.

(** **** Whatever order the store gives to rows of equal [created_at] *)

Lemma admissible_listing_facts (l rs : list Row) :
  admissible_listing l rs ->
  List.length rs = Nat.min 100 (List.length l) /\
  StronglySorted newer_or_same rs /\
  (exists rest,
      Permutation (rs ++ rest) l /\
      forall a b, In a rs -> In b rest -> created_at b <= created_at a) /\
  (NoDup (map created_at l) -> StronglySorted newer rs).
Proof.
  intros (s & Hperm & Hsorted & ->). unfold list_limit.
  split; [|split; [|split]].
  - rewrite length_firstn. now rewrite (Permutation_length Hperm).
  - now apply StronglySorted_firstn.
  - exists (skipn 100 s). split.
    + now rewrite firstn_skipn.
    + intros a b Ha Hb. apply (sorted_cut 100 s Hsorted a b Ha Hb).
  - intros Hnd. apply StronglySorted_firstn.
    apply sorted_distinct_strict; [exact Hsorted|].
    eapply Permutation_NoDup; [|exact Hnd].
    apply Permutation_map, Permutation_sym, Hperm.
Qed.

(** A row strictly newer than all the others is first in every
    arrangement. *)
Lemma newest_is_first (s l : list Row) (r : Row) :
  StronglySorted newer_or_same s ->
  Permutation s (l ++ [r]) ->
  Forall (fun x => created_at x < created_at r) l ->
  exists s', s = r :: s' /\ Permutation s' l.
Proof.
  intros Hsorted Hperm Hnewest.
  destruct s as [|h s'].
  - apply Permutation_nil in Hperm. destruct l; discriminate.
  - assert (Hh : In h (l ++ [r])).
    { eapply Permutation_in; [exact Hperm | now left]. }
    assert (Hr : In r (h :: s')).
    { eapply Permutation_in; [apply Permutation_sym, Hperm|].
      apply in_or_app. right. now left. }
    apply StronglySorted_inv in Hsorted. destruct Hsorted as [_ Hhead].
    rewrite Forall_forall in Hhead, Hnewest.
    assert (E : h = r).
    { apply in_app_or in Hh. destruct Hh as [Hh|[Hh|[]]]; [|now symmetry].
      specialize (Hnewest h Hh).
      destruct Hr as [Hr|Hr]; [exact Hr|].
      specialize (Hhead r Hr). unfold newer_or_same in Hhead. lia. }
    subst h. exists s'. split; [reflexivity|].
    apply Permutation_cons_app_inv in Hperm. now rewrite app_nil_r in Hperm.
Qed.

Lemma sorted_tail {A} (R : A -> A -> Prop) (a : A) (l : list A) :
  StronglySorted R (a :: l) -> StronglySorted R l.
Proof. intros H. now apply StronglySorted_inv in H. Qed.

Lemma latest_are_first (s old new : list Row) :
  StronglySorted newer_or_same s ->
  Permutation s (old ++ new) ->
  StronglySorted Z.lt (map created_at new) ->
  (forall a b, In a old -> In b new -> created_at a < created_at b) ->
  exists s', s = rev new ++ s' /\ Permutation s' old.
Proof.
  revert s old. induction new as [|r new IH] using rev_ind;
    intros s old Hsorted Hperm Hinc Hlater.
  - exists s. rewrite app_nil_r in Hperm. split; [reflexivity | exact Hperm].
  - rewrite map_app in Hinc. simpl in Hinc.
    assert (Hinc' : StronglySorted Z.lt (map created_at new) /\
                    Forall (fun k => k < created_at r) (map created_at new)).
    { clear - Hinc. induction (map created_at new) as [|k ks IHk]; simpl in *.
      - split; constructor.
      - apply StronglySorted_inv in Hinc. destruct Hinc as [Hs Hk].
        apply Forall_app in Hk. destruct Hk as [Hk1 Hk2].
        destruct (IHk Hs) as [IH1 IH2].
        split; constructor; auto. now inversion Hk2. }
    destruct Hinc' as [Hinc1 Hinc2].
    rewrite app_assoc in Hperm.
    destruct (newest_is_first s (old ++ new) r Hsorted Hperm) as (s1 & -> & Hperm1).
    { apply Forall_app. split.
      - rewrite Forall_forall. intros a Ha. apply Hlater; [exact Ha|].
        apply in_or_app. right. now left.
      - rewrite Forall_forall in *. intros a Ha.
        apply Hinc2. now apply in_map. }
    destruct (IH s1 old (sorted_tail _ _ _ Hsorted) Hperm1 Hinc1) as (s' & -> & Hs').
    { intros a b Ha Hb. apply Hlater; [exact Ha|]. apply in_or_app. now left. }
    exists s'. rewrite rev_app_distr. split; [reflexivity | exact Hs'].
Qed.

Lemma selected_admissible (db : DB) :
  admissible_listing (rows_of db) (selected db).
Proof.
  exists (order_by_created_at_desc (rows_of db)).
  split; [apply order_by_perm|]. split; [apply order_by_sorted | reflexivity].
Qed.

Lemma listing_admissible (db : DB) :
  admissible_rows (rows_of db) (listing db).
Proof. exists (selected db). split; [apply selected_admissible | reflexivity]. Qed.

(** Parsing the rows of a table and of a listing of it gives a table and a
    listing of it. *)
Lemma admissible_listing_parsed (l rs : list Row) :
  admissible_listing l rs ->
  admissible_listing (map parse_row l) (map parse_row rs).
Proof.
  intros (s & Hperm & Hsorted & ->). exists (map parse_row s).
  split; [now apply Permutation_map|].
  split; [now apply parse_rows_sorted | symmetry; apply firstn_map].
Qed.


Lemma admissible_listing_latest (old new rs : list Row) :
  admissible_listing (old ++ new) rs ->
  (100 <= List.length new)%nat ->
  StronglySorted Z.lt (map created_at new) ->
  (forall a b, In a old -> In b new -> created_at a < created_at b) ->
  rs = rev (skipn (List.length new - 100) new).
Proof.
  intros (s & Hperm & Hsorted & ->) Hlen Hinc Hlater.
  destruct (latest_are_first s old new Hsorted Hperm Hinc Hlater) as (s' & -> & _).
  unfold list_limit. rewrite firstn_app, length_rev.
  replace (100 - List.length new)%nat with 0%nat by lia.
  now rewrite firstn_O, app_nil_r, firstn_rev.
Qed.

(** * Facts about the actions *)

Lemma ensure_some (db : DB) : ensure db = Some (table_of db).
Proof. now destruct db. Qed.

Lemma ensure_rows (db : DB) : rows_of (ensure db) = rows_of db.
Proof. now destruct db. Qed.

Lemma ensure_seq (db : DB) : seq_of (ensure db) = seq_of db.
Proof. now destruct db. Qed.

Lemma ensure_idem (db : DB) : ensure (ensure db) = ensure db.
Proof. now destruct db. Qed.

Lemma ensure_present (db : DB) : db <> None -> ensure db = db.
Proof. now destruct db. Qed.

Lemma table_of_rows (db : DB) : rows (table_of db) = rows_of db.
Proof. now destruct db. Qed.

Lemma table_of_seq (db : DB) : last_value (table_of db) = seq_of db.
Proof. now destruct db. Qed.

Lemma tableCreationIfDoesNotExist_eq (w : World) :
  tableCreationIfDoesNotExist w =
  (Ok tt, settled w (ensure (store w)) [Query CreateTableIfNotExists (Ok [])]).
Proof.
  unfold tableCreationIfDoesNotExist, bind, pool_query, ret, ensure, settled, record.
  simpl. destruct (store w); reflexivity.
Qed.

(** Every action is: ensure the table, then one statement. *)
Lemma guarded_query (s : Stmt) (w : World) :
  (tableCreationIfDoesNotExist ;; pool_query s) w =
  let x := exec (clock w) s (ensure (store w)) in
  (parse_result (fst x),
   settled w (snd x) [Query CreateTableIfNotExists (Ok []);
                      Query s (parse_result (fst x))]).
Proof.
  unfold bind at 1. rewrite tableCreationIfDoesNotExist_eq.
  unfold pool_query, settled, record. simpl.
  destruct (exec (clock w) s (ensure (store w))) as [r db]. simpl.
  now rewrite <- app_assoc.
Qed.

Lemma guarded_query_void (s : Stmt) (w : World) :
  (tableCreationIfDoesNotExist ;; _ <- pool_query s ;; ret tt) w =
  let x := exec (clock w) s (ensure (store w)) in
  (void (fst x),
   settled w (snd x) [Query CreateTableIfNotExists (Ok []);
                      Query s (parse_result (fst x))]).
Proof.
  pose proof (guarded_query s w) as H. unfold bind in *.
  rewrite tableCreationIfDoesNotExist_eq in *. rewrite H.
  destruct (exec (clock w) s (ensure (store w))) as [[l|e] db]; reflexivity.
Qed.

Lemma addNewTaskToDatabase_eq (newTask : string) (w : World) :
  addNewTaskToDatabase newTask w =
  let x := insert_task (clock w) (Some newTask) (ensure (store w)) in
  (void (fst x),
   settled w (snd x) [Query CreateTableIfNotExists (Ok []);
                      Query (InsertTask (Some newTask)) (parse_result (fst x))]).
Proof. apply (guarded_query_void (InsertTask (Some newTask))). Qed.

Lemma updateTaskInDatabase_eq (task : Task.t) (w : World) :
  updateTaskInDatabase task w =
  let x := exec (clock w) (update_stmt task) (ensure (store w)) in
  (void (fst x),
   settled w (snd x) [Query CreateTableIfNotExists (Ok []);
                      Query (update_stmt task) (parse_result (fst x))]).
Proof. apply (guarded_query_void (update_stmt task)). Qed.

Lemma deleteTaskFromDatabase_eq (taskId : string) (w : World) :
  deleteTaskFromDatabase taskId w =
  let x := delete_task (Some taskId) (ensure (store w)) in
  (void (fst x),
   settled w (snd x) [Query CreateTableIfNotExists (Ok []);
                      Query (DeleteTask (Some taskId)) (parse_result (fst x))]).
Proof. apply (guarded_query_void (DeleteTask (Some taskId))). Qed.

Lemma getTasksFromDatabase_eq (w : World) :
  getTasksFromDatabase w =
  (Ok (listing (store w)),
   settled w (ensure (store w))
     [Query CreateTableIfNotExists (Ok []);
      Query SelectTasks (Ok (listing (store w)))]).
Proof.
  unfold getTasksFromDatabase.
  pose proof (guarded_query SelectTasks w) as H. unfold bind in *.
  rewrite tableCreationIfDoesNotExist_eq in *. rewrite H.
  unfold listing, selected. simpl. rewrite ensure_some. simpl.
  now rewrite table_of_rows.
Qed.

Lemma call_eq (c : Call) (w : World) :
  exists evs,
    call c w = (outcome (clock w) c (store w),
                settled w (step (clock w) c (store w))
                  (Query CreateTableIfNotExists (Ok []) :: evs)) /\
    (c <> EnsureSchema ->
     evs = [Query (stmt_of c)
              (parse_result (fst (exec (clock w) (stmt_of c) (ensure (store w)))))]).
Proof.
  unfold step, outcome. destruct c; cbn [call stmt_of].
  - exists []. rewrite tableCreationIfDoesNotExist_eq.
    cbn [exec]. fold (ensure (ensure (store w))). rewrite ensure_idem.
    split; [now rewrite ensure_some | congruence].
  - eexists. rewrite addNewTaskToDatabase_eq. split; reflexivity.
  - eexists. unfold bind. rewrite getTasksFromDatabase_eq.
    cbn [exec]. rewrite ensure_some. cbn [select_tasks fst snd void ret parse_result].
    rewrite table_of_rows. fold (selected (store w)). fold (listing (store w)).
    split; reflexivity.
  - eexists. rewrite updateTaskInDatabase_eq. split; reflexivity.
  - eexists. rewrite deleteTaskFromDatabase_eq. split; reflexivity.
Qed.

Lemma call_store (c : Call) (w : World) :
  store (snd (call c w)) = step (clock w) c (store w).
Proof. destruct (call_eq c w) as [evs [E _]]. now rewrite E. Qed.

Lemma run_store (h : list (Z * Call)) (w : World) :
  store (run h w) = steps h (store w).
Proof.
  revert w; induction h as [|[now c] h IH]; intros w; simpl.
  - reflexivity.
  - rewrite IH, call_store. reflexivity.
Qed.

Lemma steps_app (h1 h2 : list (Z * Call)) (db : DB) :
  steps (h1 ++ h2) db = steps h2 (steps h1 db).
Proof.
  revert db; induction h1 as [|[now c] h1 IH]; intros db; simpl; auto.
Qed.

(** **** The three mutations on an existing table, case by case *)

Lemma insert_cases (now : Z) (s : string) (db : DB) :
  insert_task now (Some s) (ensure db) =
  match title_in s with
  | Throw e => (Throw e, ensure db)
  | Ok s' =>
      if int4_max <=? seq_of db
      then (Throw sequence_generator_limit_exceeded, ensure db)
      else if has_id (seq_of db + 1) (rows_of db)
      then (Throw unique_violation, Some (mkTable (rows_of db) (seq_of db + 1)))
      else
        (Ok [],
         Some (mkTable
                 (rows_of db ++ [mkRow (seq_of db + 1) now (Some "IN_PROGRESS") (Some s')])
                 (seq_of db + 1)))
  end.
Proof.
  rewrite ensure_some. unfold insert_task, text_val, varchar_val, title_in.
  rewrite table_of_rows, table_of_seq.
  destruct (has_nul s); [reflexivity|].
  destruct (varchar title_max s); reflexivity.
Qed.

Lemma status_text_fits (st : Status) :
  varchar_val status_max (Some (status_text st)) = Ok (Some (status_text st)).
Proof. destruct st; reflexivity. Qed.

Lemma status_text_clean (st : Status) :
  text_val (Some (status_text st)) = Ok (Some (status_text st)).
Proof. destruct st; reflexivity. Qed.

Lemma update_cases (task : Task.t) (now : Z) (db : DB) :
  exec now (update_stmt task) (ensure db) =
  match update_params task with
  | Throw e => (Throw e, ensure db)
  | Ok (x, ti) =>
      if existsb (fun r => id r =? x) (rows_of db)
      then (Ok [],
            Some (mkTable (map (rewrite_row x (Task.status task) ti) (rows_of db))
                          (seq_of db)))
      else (Ok [], ensure db)
  end.
Proof.
  rewrite ensure_some. unfold update_stmt, exec, update_task, update_params.
  rewrite status_text_clean, status_text_fits. unfold text_val, int4_val, varchar_val.
  rewrite table_of_rows, table_of_seq.
  destruct (has_nul (Task.title task)); [reflexivity|].
  destruct (int4_text (Task.id task)) as [x|e]; [|reflexivity].
  destruct (varchar title_max (Task.title task)) as [ti|e]; reflexivity.
Qed.

Lemma delete_cases (taskId : string) (db : DB) :
  delete_task (Some taskId) (ensure db) =
  match int4_text taskId with
  | Throw e => (Throw e, ensure db)
  | Ok x =>
      (Ok [],
       Some (mkTable (filter (fun r => negb (id r =? x)) (rows_of db)) (seq_of db)))
  end.
Proof.
  rewrite ensure_some. unfold delete_task, int4_val.
  rewrite table_of_rows, table_of_seq.
  destruct (int4_text taskId); reflexivity.
Qed.

(** The parameters of an update, by their texts. *)
Lemma update_params_ok (task : Task.t) (x : Z) :
  int4in (Task.id task) = Ok x ->
  has_nul (Task.title task) = false ->
  (String.length (Task.title task) <= title_max)%nat ->
  update_params task = Ok (x, Task.title task).
Proof.
  intros Hx Hnul Hfit. unfold update_params.
  now rewrite Hnul, (proj2 (int4_text_ok _ _) Hx), (varchar_fits _ _ Hfit).
Qed.

Lemma update_params_id (task : Task.t) (x : Z) (ti : string) :
  update_params task = Ok (x, ti) -> int4in (Task.id task) = Ok x.
Proof.
  unfold update_params. destruct (has_nul _); [discriminate|].
  destruct (int4_text (Task.id task)) as [y|e] eqn:E; [|discriminate].
  destruct (varchar _ _); [|discriminate]. intros [= <- _].
  now apply int4_text_ok.
Qed.

Lemma update_params_title (task : Task.t) (x : Z) (ti : string) :
  update_params task = Ok (x, ti) -> title_in (Task.title task) = Ok ti.
Proof.
  unfold update_params, title_in. destruct (has_nul _); [discriminate|].
  destruct (int4_text (Task.id task)); [|discriminate].
  destruct (varchar _ _); [|discriminate]. now intros [= _ <-].
Qed.

(** Rewriting the rows of one id keeps every row's place, id and time of
    creation, and every other row as a whole. *)
Lemma rewrite_rows_frame (x : Z) (st : Status) (ti : string) (l : list Row) :
  Forall2 (fun r r' => id r' = id r /\ created_at r' = created_at r /\
                       (id r <> x -> r' = r))
          l (map (rewrite_row x st ti) l).
Proof.
  induction l as [|r l IH]; simpl; constructor; [|exact IH].
  unfold rewrite_row. destruct (Z.eqb_spec (id r) x); simpl; intuition congruence.
Qed.

Lemma Forall2_same {A} (P : A -> A -> Prop) (l : list A) :
  (forall a, P a a) -> Forall2 P l l.
Proof. intros H; induction l; constructor; auto. Qed.

Lemma existsb_none_map (x : Z) (st : Status) (ti : string) (l : list Row) :
  existsb (fun r => id r =? x) l = false ->
  map (rewrite_row x st ti) l = l.
Proof.
  induction l as [|r l IH]; simpl; [reflexivity|].
  intros H. apply orb_false_elim in H. destruct H as [H1 H2].
  unfold rewrite_row at 1. rewrite H1. now rewrite IH.
Qed.

Lemma filter_none (x : Z) (l : list Row) :
  (forall r, In r l -> id r <> x) ->
  filter (fun r => negb (id r =? x)) l = l.
Proof.
  induction l as [|r l IH]; simpl; [reflexivity|].
  intros H. destruct (Z.eqb_spec (id r) x) as [E|_]; simpl.
  - exfalso. apply (H r); auto.
  - rewrite IH; auto.
Qed.

Lemma existsb_none (x : Z) (l : list Row) :
  (forall r, In r l -> id r <> x) ->
  existsb (fun r => id r =? x) l = false.
Proof.
  induction l as [|r l IH]; simpl; [reflexivity|].
  intros H. destruct (Z.eqb_spec (id r) x) as [E|_]; simpl.
  - exfalso. apply (H r); auto.
  - apply IH; auto.
Qed.

(** **** Adding several tasks *)

Lemma add_all_rows (adds : list (Z * string)) (w w1 : World) :
  add_all adds w = (Ok tt, w1) ->
  exists news,
    rows_of (store w1) = rows_of (store w) ++ news /\
    map created_at news = map fst adds /\
    Forall (fun r => status r = Some "IN_PROGRESS") news.
Proof.
  revert w. induction adds as [|[now ti] adds IH]; intros w; simpl.
  - intros [= <-]. exists []. now rewrite app_nil_r.
  - unfold bind at 1. rewrite addNewTaskToDatabase_eq.
    cbn [at_time store clock]. rewrite insert_cases.
    destruct (title_in ti) as [ti'|e]; cbn [fst snd void]; [|discriminate].
    destruct (int4_max <=? _); cbn [fst snd void]; [discriminate|].
    destruct (has_id _ _); cbn [fst snd void]; [discriminate|].
    intros H. apply IH in H. destruct H as (news & Hrows & Htimes & Hst).
    cbn [settled store rows_of rows at_time] in Hrows.
    exists (mkRow (seq_of (store w) + 1) now (Some "IN_PROGRESS") (Some ti') :: news).
    rewrite Hrows, <- app_assoc. simpl. rewrite Htimes.
    repeat split. now constructor.
Qed.

Lemma sample_times_sorted (a n : nat) :
  StronglySorted Z.lt (map (fun k => 1000 * Z.of_nat k) (seq a n)).
Proof.
  revert a; induction n as [|n IH]; intros a; cbn [seq map]; constructor.
  - apply IH.
  - rewrite Forall_forall. intros t Ht. apply in_map_iff in Ht.
    destruct Ht as (k & <- & Hk). apply in_seq in Hk. lia.
Qed.

Lemma filter_one_less (x : Z) (l : list Row) :
  NoDup (map id l) ->
  (exists r, In r l /\ id r = x) ->
  List.length l = S (List.length (filter (fun r => negb (id r =? x)) l)).
Proof.
  induction l as [|a l IH]; simpl; intros Hnd (r & Hr & Hid).
  - contradiction.
  - inversion Hnd as [|? ? Hnotin Hnd']; subst.
    destruct (Z.eqb_spec (id a) (id r)) as [E|Hne]; simpl.
    + f_equal. rewrite filter_none; [reflexivity|].
      intros r' Hr' E'. apply Hnotin. rewrite E, <- E'. now apply in_map.
    + f_equal. apply IH; [exact Hnd'|].
      destruct Hr as [->|Hr]; [congruence|]. now exists r.
Qed.

(** **** Histories with and without schema calls *)

Lemma step_ensure (now : Z) (db : DB) : step now EnsureSchema db = ensure db.
Proof. unfold step. cbn [stmt_of exec]. fold (ensure (ensure db)). apply ensure_idem. Qed.

Lemma step_absorbs_ensure (now : Z) (c : Call) (db1 db2 : DB) :
  ensure db1 = ensure db2 -> step now c db1 = step now c db2.
Proof. unfold step. now intros ->. Qed.

Lemma steps_without_schema_calls (h : list (Z * Call)) (db1 db2 : DB) :
  ensure db1 = ensure db2 ->
  ensure (steps h db1) = ensure (steps (without_schema_calls h) db2).
Proof.
  revert db1 db2. induction h as [|[now c] h IH]; intros db1 db2 E.
  - exact E.
  - destruct c; cbn [without_schema_calls filter is_schema_call snd negb steps];
      fold (without_schema_calls h);
      try (apply IH; f_equal; now apply step_absorbs_ensure).
    apply IH. now rewrite step_ensure, ensure_idem.
Qed.

(** **** Ids along a history *)

Lemma sorted_snoc (l : list Z) (x : Z) :
  StronglySorted Z.lt l -> Forall (fun y => y < x) l ->
  StronglySorted Z.lt (l ++ [x]).
Proof.
  induction 1 as [|a l Hs IH Ha]; intros Hx; simpl.
  - repeat constructor.
  - inversion Hx; subst. constructor; [now apply IH|].
    apply Forall_app. split; [exact Ha | now constructor].
Qed.

Lemma sorted_filter_ids (f : Row -> bool) (l : list Row) :
  StronglySorted Z.lt (map id l) -> StronglySorted Z.lt (map id (filter f l)).
Proof.
  induction l as [|a l IH]; simpl; intros Hs; [constructor|].
  apply StronglySorted_inv in Hs. destruct Hs as [Hs Ha].
  destruct (f a); simpl; [|now apply IH].
  constructor; [now apply IH|].
  rewrite Forall_forall in *. intros y Hy. apply Ha.
  apply in_map_iff in Hy. destruct Hy as (r & <- & Hr).
  apply filter_In in Hr. apply in_map, Hr.
Qed.

Lemma rewrite_rows_ids (x : Z) (st : Status) (ti : string) (l : list Row) :
  map id (map (rewrite_row x st ti) l) = map id l.
Proof.
  rewrite map_map. apply map_ext. intros r. unfold rewrite_row.
  now destruct (id r =? x).
Qed.

Lemma sorted_lt_NoDup (l : list Z) : StronglySorted Z.lt l -> NoDup l.
Proof.
  induction 1 as [|a l Hs IH Ha]; constructor; [|exact IH].
  intros Hin. rewrite Forall_forall in Ha. specialize (Ha a Hin). lia.
Qed.

Lemma ensure_ids_ok (db : DB) : ids_ok db -> ids_ok (ensure db).
Proof. unfold ids_ok. now rewrite ensure_rows, ensure_seq. Qed.

(** The database after a call, by the kind of call. *)
Lemma step_cases (now : Z) (c : Call) (db : DB) :
  step now c db = ensure db \/
  step now c db = Some (mkTable (rows_of db) (seq_of db + 1)) \/
  (exists ti,
      has_id (seq_of db + 1) (rows_of db) = false /\
      step now c db =
      Some (mkTable (rows_of db ++ [mkRow (seq_of db + 1) now (Some "IN_PROGRESS") (Some ti)])
                    (seq_of db + 1))) \/
  (exists x st ti,
      step now c db =
      Some (mkTable (map (rewrite_row x st ti) (rows_of db)) (seq_of db))) \/
  (exists x,
      step now c db =
      Some (mkTable (filter (fun r => negb (id r =? x)) (rows_of db)) (seq_of db))).
Proof.
  unfold step. destruct c; cbn [stmt_of exec].
  - left. fold (ensure (ensure db)). apply ensure_idem.
  - rewrite insert_cases. destruct (title_in title0) as [ti|e]; cbn [snd].
    + destruct (int4_max <=? _); cbn [snd]; [now left|].
      destruct (has_id _ _) eqn:Hkey; cbn [snd].
      * right. now left.
      * right. right. left. now exists ti.
    + now left.
  - left. rewrite ensure_some. reflexivity.
  - rewrite update_cases. destruct (update_params task) as [[x ti]|e]; [|now left].
    destruct (existsb _ _); cbn [snd]; [|now left].
    right. right. right. left. now exists x, (Task.status task), ti.
  - rewrite delete_cases. destruct (int4_text taskId) as [x|e]; cbn [snd]; [|now left].
    right. right. right. right. now exists x.
Qed.

(** The sequence stays within 32 bits. *)
Lemma step_seq_bounded (now : Z) (c : Call) (db : DB) :
  seq_of db <= int4_max -> seq_of (step now c db) <= int4_max.
Proof.
  intros Hmax. unfold step. destruct c; cbn [stmt_of exec].
  - fold (ensure (ensure db)). now rewrite ensure_idem, ensure_seq.
  - rewrite insert_cases. destruct (title_in title0) as [ti|e]; cbn [snd];
      [|now rewrite ensure_seq].
    destruct (Z.leb_spec int4_max (seq_of db)); cbn [snd]; [now rewrite ensure_seq|].
    destruct (has_id _ _); cbn [snd seq_of last_value]; lia.
  - rewrite ensure_some. cbn [select_tasks snd]. now rewrite <- ensure_some, ensure_seq.
  - rewrite update_cases. destruct (update_params task) as [[x ti]|e]; cbn [snd];
      [|now rewrite ensure_seq].
    destruct (existsb _ _); cbn [snd seq_of last_value];
      [exact Hmax | now rewrite ensure_seq].
  - rewrite delete_cases. destruct (int4_text taskId); cbn [snd seq_of last_value];
      [exact Hmax | now rewrite ensure_seq].
Qed.

Lemma step_seq_mono (now : Z) (c : Call) (db : DB) :
  seq_of db <= seq_of (step now c db).
Proof.
  destruct (step_cases now c db)
    as [E|[E|[(ti & _ & E)|[(x & st & ti & E)|(x & E)]]]];
    rewrite E; [rewrite ensure_seq|..]; cbn [seq_of last_value]; lia.
Qed.

Lemma step_ids_ok (now : Z) (c : Call) (db : DB) :
  ids_ok db -> ids_ok (step now c db).
Proof.
  intros Hok. pose proof (ensure_ids_ok db Hok) as Hens.
  destruct Hok as (Hs & H0 & Hb).
  destruct (step_cases now c db)
    as [E|[E|[(ti & _ & E)|[(x & st & ti & E)|(x & E)]]]];
    rewrite E; [exact Hens|..]; unfold ids_ok; cbn [rows_of rows seq_of last_value].
  - split; [exact Hs|]. split; [lia|].
    eapply Forall_impl; [|exact Hb]. cbv beta. intros r Hr. lia.
  - split; [|split].
    + rewrite map_app. cbn [map id]. apply sorted_snoc; [exact Hs|].
      rewrite Forall_forall in *. intros y Hy.
      apply in_map_iff in Hy. destruct Hy as (r & <- & Hr).
      specialize (Hb r Hr). lia.
    + lia.
    + apply Forall_app. split.
      * eapply Forall_impl; [|exact Hb]. cbv beta. intros r Hr. lia.
      * constructor; [|constructor]. cbn [id]. lia.
  - split; [|split].
    + now rewrite rewrite_rows_ids.
    + exact H0.
    + rewrite Forall_forall in *. intros r' Hr'.
      apply in_map_iff in Hr'. destruct Hr' as (r & <- & Hr).
      specialize (Hb r Hr). unfold rewrite_row.
      destruct (id r =? x); exact Hb.
  - split; [|split].
    + now apply sorted_filter_ids.
    + exact H0.
    + rewrite Forall_forall in *. intros r Hr. apply filter_In in Hr.
      apply Hb, Hr.
Qed.

(** A row that is in the table after a call and whose id had been drawn
    before the call was in the table before it, created at the same
    time. *)
Lemma step_keeps_identity (now : Z) (c : Call) (db : DB) (r' : Row) :
  In r' (rows_of (step now c db)) ->
  id r' <= seq_of db ->
  exists r, In r (rows_of db) /\ id r = id r' /\ created_at r = created_at r'.
Proof.
  destruct (step_cases now c db)
    as [E|[E|[(ti & _ & E)|[(x & st & ti & E)|(x & E)]]]];
    rewrite E; [rewrite ensure_rows|..]; cbn [rows_of rows]; intros Hr' Hid.
  - now exists r'.
  - now exists r'.
  - apply in_app_or in Hr'. destruct Hr' as [Hr'|[<-|[]]].
    + now exists r'.
    + cbn [id] in Hid. lia.
  - apply in_map_iff in Hr'. destruct Hr' as (r & <- & Hr).
    exists r. split; [exact Hr|]. unfold rewrite_row.
    destruct (id r =? x); split; reflexivity.
  - apply filter_In in Hr'. now exists r'.
Qed.

Lemma steps_seq_mono (h : list (Z * Call)) (db : DB) :
  seq_of db <= seq_of (steps h db).
Proof.
  revert db. induction h as [|[now c] h IH]; intros db; simpl; [lia|].
  pose proof (step_seq_mono now c db). specialize (IH (step now c db)). lia.
Qed.

Lemma steps_ids_ok (h : list (Z * Call)) (db : DB) :
  ids_ok db -> ids_ok (steps h db).
Proof.
  revert db. induction h as [|[now c] h IH]; intros db Hok; simpl; [exact Hok|].
  apply IH, step_ids_ok, Hok.
Qed.

Lemma ids_ok_fresh : ids_ok None.
Proof. repeat split; simpl; try constructor; lia. Qed.

Lemma run_ids_ok (h : list (Z * Call)) : ids_ok (store (run h world0)).
Proof. rewrite run_store. apply steps_ids_ok, ids_ok_fresh. Qed.

(** The next value of the sequence is not a key of the table: in a table
    the program has built, the primary key never rejects an insert. *)
Lemma next_id_is_new (db : DB) :
  ids_ok db -> has_id (seq_of db + 1) (rows_of db) = false.
Proof.
  intros (_ & _ & Hb). unfold has_id. apply existsb_none.
  rewrite Forall_forall in Hb. intros r Hr. specialize (Hb r Hr). lia.
Qed.


(** **** Status and title along a history *)

Lemma status_text_valid (st : Status) :
  Some (status_text st) = Some "IN_PROGRESS" \/ Some (status_text st) = Some "COMPLETE".
Proof. destruct st; [left | right]; reflexivity. Qed.

Lemma step_rows_valid (now : Z) (c : Call) (db : DB) :
  Forall row_valid (rows_of db) -> Forall row_valid (rows_of (step now c db)).
Proof.
  intros Hv.
  destruct (step_cases now c db)
    as [E|[E|[(ti & _ & E)|[(x & st & ti & E)|(x & E)]]]];
    rewrite E; [now rewrite ensure_rows|..]; cbn [rows_of rows].
  - exact Hv.
  - apply Forall_app. split; [exact Hv|].
    constructor; [|constructor]. split; [now left | discriminate].
  - rewrite Forall_forall in *. intros r' Hr'.
    apply in_map_iff in Hr'. destruct Hr' as (r & <- & Hr).
    unfold rewrite_row. destruct (id r =? x); [|now apply Hv].
    split; [apply status_text_valid | discriminate].
  - rewrite Forall_forall in *. intros r Hr. apply filter_In in Hr.
    apply Hv, Hr.
Qed.

(** **** The handlers of the page *)

Lemma mutate_then_getTasks (s : Stmt) (w : World) :
  (mutation s ;; getTasks) w =
  match exec (clock w) s (ensure (store w)) with
  | (Ok l, db) =>
      (Ok tt,
       mkWorld (ensure db) (clock w) (newTaskTitle w) (listing db)
         (log w ++ [Query CreateTableIfNotExists (Ok []);
                    Query s (Ok (map parse_row l));
                    Query CreateTableIfNotExists (Ok []);
                    Query SelectTasks (Ok (listing db));
                    SetTasks (listing db)]))
  | (Throw e, db) =>
      (Throw e,
       settled w db [Query CreateTableIfNotExists (Ok []); Query s (Throw e)])
  end.
Proof.
  unfold bind at 1. unfold mutation. rewrite guarded_query_void. cbv zeta.
  destruct (exec (clock w) s (ensure (store w))) as [[l|e] db]; cbn [fst snd void];
    [|reflexivity].
  unfold getTasks, bind. rewrite getTasksFromDatabase_eq.
  unfold setTasks, record, settled. cbn [store clock newTaskTitle tasks log].
  rewrite <- !app_assoc. reflexivity.
Qed.

Lemma insert_result (now : Z) (s : string) (db : DB) (l : list Row) (db' : DB) :
  insert_task now (Some s) (ensure db) = (Ok l, db') -> l = [] /\ ensure db' = db'.
Proof.
  rewrite insert_cases. destruct (title_in s); [|discriminate].
  destruct (int4_max <=? _); [discriminate|].
  destruct (has_id _ _); [discriminate|].
  intros [= <- <-]. split; reflexivity.
Qed.

Lemma update_result (task : Task.t) (now : Z) (db : DB) (l : list Row) (db' : DB) :
  exec now (update_stmt task) (ensure db) = (Ok l, db') -> l = [] /\ ensure db' = db'.
Proof.
  rewrite update_cases. destruct (update_params task) as [[x ti]|e]; [|discriminate].
  destruct (existsb _ _); intros [= <- <-]; split; try reflexivity.
  apply ensure_idem.
Qed.

Lemma delete_result (taskId : string) (db : DB) (l : list Row) (db' : DB) :
  delete_task (Some taskId) (ensure db) = (Ok l, db') -> l = [] /\ ensure db' = db'.
Proof.
  rewrite delete_cases. destruct (int4_text taskId); [|discriminate].
  intros [= <- <-]. split; reflexivity.
Qed.

Lemma exec_ensure_present (now : Z) (s : Stmt) (db : DB) :
  ensure (snd (exec now s (ensure db))) = snd (exec now s (ensure db)).
Proof.
  apply ensure_present. rewrite ensure_some.
  destruct s; cbn [exec create_table_if_not_exists insert_task select_tasks
                   update_task delete_task snd]; try discriminate.
  - destruct (text_val p1) as [v|e]; try discriminate.
    destruct (varchar_val title_max v) as [[ti|]|e]; try discriminate;
      destruct (int4_max <=? _); try discriminate.
    destruct (has_id _ _); discriminate.
  - destruct (text_val p1) as [v1|]; try discriminate.
    destruct (text_val p2) as [v2|]; try discriminate.
    destruct (int4_val p3); try discriminate.
    destruct (varchar_val status_max v1) as [st|]; try discriminate.
    destruct (varchar_val title_max v2) as [ti|]; try discriminate.
    destruct (existsb _ _); try discriminate.
    destruct st, ti; discriminate.
  - destruct (int4_val p1); discriminate.
Qed.

(** A handler of the page leaves the store as the action it awaits first
    leaves it: the page reaches no store that the data access module does
    not reach. *)
Lemma mutate_then_getTasks_store (s : Stmt) (w : World) :
  store (snd ((mutation s ;; getTasks) w)) = store (snd (mutation s w)).
Proof.
  rewrite mutate_then_getTasks. unfold mutation. rewrite guarded_query_void.
  cbv zeta. pose proof (exec_ensure_present (clock w) s (store w)) as Hpresent.
  destruct (exec (clock w) s (ensure (store w))) as [[l|e] db]; cbn [snd] in *.
  - exact Hpresent.
  - reflexivity.
Qed.

Lemma bind_assoc {A B C} (m : M A) (k : M B) (j : M C) (w : World) :
  (m ;; k ;; j) w = ((m ;; k) ;; j) w.
Proof.
  unfold bind. destruct (m w) as [[a|e] w1]; [|reflexivity].
  destruct (k w1) as [[b|e] w2]; reflexivity.
Qed.

Lemma listing_ensure (db : DB) : listing (ensure db) = listing db.
Proof. unfold listing, selected. now rewrite ensure_rows. Qed.

Lemma updateTask_store (task : Task.t) (newTaskValues : PartialTask.t) (w : World) :
  store (snd (updateTask task newTaskValues w)) =
  store (snd (updateTaskInDatabase (spread task newTaskValues) w)).
Proof. apply (mutate_then_getTasks_store (update_stmt (spread task newTaskValues))). Qed.

Lemma deleteTask_store (taskId : string) (w : World) :
  store (snd (deleteTask taskId w)) = store (snd (deleteTaskFromDatabase taskId w)).
Proof. apply (mutate_then_getTasks_store (DeleteTask (Some taskId))). Qed.

Lemma handleSubmit_store (w : World) :
  store (snd (handleSubmit w)) =
  store (snd (addNewTaskToDatabase (newTaskTitle w) w)).
Proof.
  pose proof (mutate_then_getTasks_store
                (InsertTask (Some (newTaskTitle w))) (record PreventDefault w)) as H.
  unfold handleSubmit. unfold bind at 1. unfold preventDefault.
  rewrite bind_assoc. unfold bind at 1.
  change (addNewTaskToDatabase (newTaskTitle w))
    with (mutation (InsertTask (Some (newTaskTitle w)))).
  destruct ((mutation (InsertTask (Some (newTaskTitle w))) ;; getTasks)
              (record PreventDefault w)) as [[[]|e] w1]; cbn [snd] in *.
  - unfold setNewTaskTitle. cbn [snd record store]. rewrite H.
    unfold mutation. rewrite !guarded_query_void. reflexivity.
  - rewrite H. unfold mutation. rewrite !guarded_query_void. reflexivity.
Qed.

(** * Properties of the specification *)

(** C1, as stated, fails on the code.  The store keeps [created_at] to
    the microsecond and orders by it, but the program receives each
    [created_at] as a [Date], which counts milliseconds: two tasks created
    within the same millisecond have distinct [created_at] in the table,
    and come back with the same one, so the returned sequence is not
    strictly descending. *)
Lemma C1_listing_counterexample :
  let w := run [(1200, AddTask "a"); (1700, AddTask "b")] world0 in
  let rs := [mkRow 2 1 (Some "IN_PROGRESS") (Some "b");
             mkRow 1 1 (Some "IN_PROGRESS") (Some "a")] in
  NoDup (map created_at (rows_of (store w))) /\
  fst (getTasksFromDatabase w) = Ok rs /\
  ~ StronglySorted newer rs.
Proof.
  cbv zeta. split; [|split].
  - vm_compute. repeat constructor; simpl; intuition discriminate.
  - vm_compute. reflexivity.
  - intros H. apply StronglySorted_inv in H. destruct H as [_ H].
    apply Forall_inv in H. unfold newer in H. cbn [created_at] in H. lia.
Qed.

(** C1, amended.  In every world [getTasksFromDatabase] resolves, and
    with the rows of an admissible listing of the table, parsed: the first
    100 rows of an arrangement of the table by decreasing [created_at].
    For every admissible listing, whatever order the store gives to rows
    created at the same time: what is returned has at most 100 rows, as
    many as the table has up to 100, in descending order of [created_at],
    both as stored and as returned; no row left out is newer than a row
    returned; the order is strictly descending in the stored [created_at]
    when the [created_at] values of the table are pairwise distinct, and
    strictly descending in the returned [created_at] when they are
    pairwise distinct to the millisecond.  After 150 tasks have been
    added, whatever was there before, what is returned has exactly 100
    rows; and when the 150 were added at increasing times, all later than
    the rows already there, they are the last 100 of them, latest
    first. *)
Theorem C1_listing_order_and_cap :
  (forall w : World,
     exists rs w',
       getTasksFromDatabase w = (Ok (map parse_row rs), w') /\
       admissible_listing (rows_of (store w)) rs)
  /\
  (forall l rs : list Row,
     admissible_listing l rs ->
     (List.length (map parse_row rs) <= 100)%nat /\
     List.length (map parse_row rs) = Nat.min 100 (List.length l) /\
     StronglySorted newer_or_same rs /\
     StronglySorted newer_or_same (map parse_row rs) /\
     (exists rest,
         Permutation (rs ++ rest) l /\
         forall a b, In a rs -> In b rest -> created_at b <= created_at a) /\
     (NoDup (map created_at l) -> StronglySorted newer rs) /\
     (NoDup (map (fun r => parse_timestamp (created_at r)) l) ->
      StronglySorted newer (map parse_row rs)))
  /\
  (forall (w : World) (adds : list (Z * string)) (w1 : World),
     List.length adds = 150%nat ->
     add_all adds w = (Ok tt, w1) ->
     exists news,
       rows_of (store w1) = rows_of (store w) ++ news /\
       map created_at news = map fst adds /\
       forall rs,
         admissible_listing (rows_of (store w1)) rs ->
         List.length (map parse_row rs) = 100%nat /\
         (StronglySorted Z.lt (map fst adds) ->
          (forall r t, In r (rows_of (store w)) -> In t (map fst adds) ->
                       created_at r < t) ->
          rs = rev (skipn 50 news))).
Proof.
  split; [|split].
  - intros w. rewrite getTasksFromDatabase_eq.
    exists (selected (store w)). eexists. split; [reflexivity|].
    apply selected_admissible.
  - intros l rs Hrs.
    destruct (admissible_listing_facts l rs Hrs) as (Hlen & Hsorted & Hrest & Hstrict).
    rewrite length_map.
    split; [rewrite Hlen; apply Nat.le_min_l|].
    split; [exact Hlen|]. split; [exact Hsorted|].
    split; [now apply parse_rows_sorted|]. split; [exact Hrest|].
    split; [exact Hstrict|].
    intros Hnd.
    destruct (admissible_listing_facts _ _ (admissible_listing_parsed l rs Hrs))
      as (_ & _ & _ & Hparsed).
    apply Hparsed. now rewrite map_map.
  - intros w adds w1 Hn Hadd.
    destruct (add_all_rows adds w w1 Hadd) as (news & Hrows & Htimes & _).
    assert (Hnews : List.length news = 150%nat).
    { rewrite <- Hn, <- (length_map fst adds), <- Htimes. now rewrite length_map. }
    exists news. split; [exact Hrows|]. split; [exact Htimes|].
    intros rs Hrs. split.
    + destruct (admissible_listing_facts _ rs Hrs) as (Hlen & _).
      rewrite length_map, Hlen, Hrows, length_app. lia.
    + intros Hs Hlater. rewrite Hrows in Hrs.
      rewrite (admissible_listing_latest _ _ rs Hrs).
      * now rewrite Hnews.
      * lia.
      * now rewrite Htimes.
      * intros a b Ha Hb. apply Hlater; [exact Ha|].
        rewrite <- Htimes. now apply in_map.
Qed.

Lemma C1_listing_witness :
  exists rs w2,
    getTasksFromDatabase (snd (add_all sample_adds world0)) = (Ok rs, w2) /\
    List.length rs = 100%nat /\
    map created_at rs = map Z.of_nat (rev (seq 51 100)).
Proof.
  destruct C1_listing_order_and_cap as (Hget & _ & Hcap).
  destruct (Hget (snd (add_all sample_adds world0))) as (rs & w2 & Hrs & Hadm).
  destruct (Hcap world0 sample_adds (snd (add_all sample_adds world0)) eq_refl)
    as (news & Hrows & Htimes & Hall).
  { vm_compute. reflexivity. }
  destruct (Hall rs Hadm) as (Hlen & Hlast).
  exists (map parse_row rs), w2. split; [exact Hrs|]. split; [exact Hlen|].
  rewrite Hlast.
  - rewrite parse_rows_times, map_rev, <- skipn_map, Htimes. vm_compute. reflexivity.
  - unfold sample_adds. rewrite map_map. cbn [fst].
    apply sample_times_sorted.
  - intros r t [].
Defined.

(** C2.  Update.  Whatever the store holds and whatever task value is
    given, after [updateTaskInDatabase] (resolved or rejected) the table has
    the same rows in the same places with the same [id] and [created_at],
    and every row whose id is not the one the task's [id] denotes is
    unchanged as a whole.  When the task's [id] reads as the integer [x] and
    the title is a text the store reads and fits the column, the call
    resolves and exactly the rows with id [x] carry the given status and
    title. *)
Theorem C2_update_touches_one_row (w : World) (task : Task.t) :
  let w' := snd (updateTaskInDatabase task w) in
  Forall2 (fun r r' => id r' = id r /\ created_at r' = created_at r /\
                       (int4in (Task.id task) <> Ok (id r) -> r' = r))
          (rows_of (store w)) (rows_of (store w'))
  /\
  (forall x : Z,
     int4in (Task.id task) = Ok x ->
     has_nul (Task.title task) = false ->
     (String.length (Task.title task) <= title_max)%nat ->
     fst (updateTaskInDatabase task w) = Ok tt /\
     rows_of (store w') =
     map (fun r => if id r =? x
                   then mkRow (id r) (created_at r)
                          (Some (status_text (Task.status task)))
                          (Some (Task.title task))
                   else r)
         (rows_of (store w))).
Proof.
  cbv zeta. rewrite updateTaskInDatabase_eq. cbv zeta.
  cbn [fst snd settled store]. rewrite update_cases.
  assert (Hsame : Forall2 (fun r r' => id r' = id r /\ created_at r' = created_at r /\
                       (int4in (Task.id task) <> Ok (id r) -> r' = r))
                    (rows_of (store w)) (rows_of (ensure (store w)))).
  { rewrite ensure_rows. apply Forall2_same. auto. }
  split.
  - destruct (update_params task) as [[x ti]|e] eqn:E; [|exact Hsame].
    apply update_params_id in E.
    destruct (existsb (fun r => id r =? x) (rows_of (store w))); [|exact Hsame].
    cbn [snd rows_of rows].
    eapply Forall2_impl; [|apply rewrite_rows_frame].
    intros r r' (Hid & Hat & Hother). repeat split; auto.
    intros Hne. apply Hother. congruence.
  - intros x Hx Hnul Hfit. rewrite (update_params_ok task x Hx Hnul Hfit).
    destruct (existsb (fun r => id r =? x) (rows_of (store w))) eqn:Hex;
      cbn [fst snd void rows_of rows]; split; try reflexivity.
    rewrite ensure_rows.
    symmetry. apply (existsb_none_map x (Task.status task) (Task.title task)), Hex.
Qed.

Lemma C2_update_witness :
  let w := run [(10, AddTask "a"); (20, AddTask "b")] world0 in
  let task := Task.mk "2" "T" COMPLETE in
  fst (updateTaskInDatabase task w) = Ok tt /\
  rows_of (store (snd (updateTaskInDatabase task w))) =
  [mkRow 1 10 (Some "IN_PROGRESS") (Some "a"); mkRow 2 20 (Some "COMPLETE") (Some "T")].
Proof.
  cbv zeta.
  destruct (proj2 (C2_update_touches_one_row
                     (run [(10, AddTask "a"); (20, AddTask "b")] world0)
                     (Task.mk "2" "T" COMPLETE)) 2) as [Hok Hrows].
  - vm_compute. reflexivity.
  - reflexivity.
  - unfold title_max. simpl. lia.
  - split; [exact Hok|]. rewrite Hrows. vm_compute. reflexivity.
Defined.







(** C5.  Delete.  For every id [x] of a stored row, given as text that reads
    as [x], [deleteTaskFromDatabase] resolves and the table keeps exactly
    the rows whose id is not [x], in their order (one row fewer, ids being
    distinct); deleting again resolves too and leaves the database as the
    first delete left it. *)
Theorem C5_delete_exact_idempotent (w : World) (taskId : string) (x : Z) :
  int4in taskId = Ok x ->
  (exists r, In r (rows_of (store w)) /\ id r = x) ->
  exists w1,
    deleteTaskFromDatabase taskId w = (Ok tt, w1) /\
    rows_of (store w1) = filter (fun r => negb (id r =? x)) (rows_of (store w)) /\
    (forall r, In r (rows_of (store w1)) <-> In r (rows_of (store w)) /\ id r <> x) /\
    (NoDup (map id (rows_of (store w))) ->
     List.length (rows_of (store w)) = S (List.length (rows_of (store w1)))) /\
    exists w2,
      deleteTaskFromDatabase taskId w1 = (Ok tt, w2) /\
      store w2 = store w1.
Proof.
  intros E Hstored. rewrite deleteTaskFromDatabase_eq. cbv zeta.
  apply int4_text_ok in E.
  rewrite delete_cases, E. cbn [fst snd void].
  eexists. split; [reflexivity|]. cbn [settled store rows_of rows].
  split; [reflexivity|]. split; [|split].
  - intros r. rewrite filter_In. rewrite negb_true_iff, Z.eqb_neq. reflexivity.
  - intros Hnd. now apply filter_one_less.
  - rewrite deleteTaskFromDatabase_eq. cbv zeta. cbn [settled store clock].
    rewrite delete_cases, E.
    cbn [fst snd void]. eexists. split; [reflexivity|].
    cbn [settled store rows_of seq_of rows last_value]. f_equal. f_equal.
    apply filter_none. intros r Hr. apply filter_In in Hr.
    destruct Hr as [_ Hr]. now rewrite negb_true_iff, Z.eqb_neq in Hr.
Qed.

Lemma C5_delete_witness :
  exists w1 w2,
    deleteTaskFromDatabase (number_text 1) two_tasks = (Ok tt, w1) /\
    rows_of (store w1) = [mkRow 2 20 (Some "IN_PROGRESS") (Some "b")] /\
    deleteTaskFromDatabase (number_text 1) w1 = (Ok tt, w2) /\
    store w2 = store w1.
Proof.
  destruct (C5_delete_exact_idempotent two_tasks (number_text 1) 1)
    as (w1 & Hdel & Hrows & _ & _ & w2 & Hagain & Hsame).
  - vm_compute. reflexivity.
  - exists (mkRow 1 10 (Some "IN_PROGRESS") (Some "a")).
    split; [vm_compute; left; reflexivity | reflexivity].
  - exists w1, w2. split; [exact Hdel|].
    split; [rewrite Hrows; vm_compute; reflexivity|].
    split; [exact Hagain | exact Hsame].
Defined.

(** C6.  Schema creation.  [tableCreationIfDoesNotExist] always resolves,
    keeps every row, and changes nothing at all when the table exists;
    running it twice is the same as running it once; a history ends with
    the same rows whether or not schema calls are put anywhere in it, any
    number of times.  Each of the four actions first sends
    [CREATE TABLE IF NOT EXISTS], which succeeds, and then its own
    statement. *)
Theorem C6_schema_creation :
  (forall w : World,
     exists w',
       tableCreationIfDoesNotExist w = (Ok tt, w') /\
       rows_of (store w') = rows_of (store w) /\
       store w' <> None /\
       (store w <> None -> store w' = store w))
  /\
  (forall w : World,
     store (snd (tableCreationIfDoesNotExist (snd (tableCreationIfDoesNotExist w))))
     = store (snd (tableCreationIfDoesNotExist w)))
  /\
  (forall (h : list (Z * Call)) (w : World),
     rows_of (store (run h w)) = rows_of (store (run (without_schema_calls h) w)))
  /\
  (forall (w : World) (newTask : string),
     exists r, log (snd (addNewTaskToDatabase newTask w)) =
               log w ++ [Query CreateTableIfNotExists (Ok []);
                         Query (InsertTask (Some newTask)) r])
  /\
  (forall w : World,
     exists r, log (snd (getTasksFromDatabase w)) =
               log w ++ [Query CreateTableIfNotExists (Ok []);
                         Query SelectTasks r])
  /\
  (forall (w : World) (task : Task.t),
     exists r, log (snd (updateTaskInDatabase task w)) =
               log w ++ [Query CreateTableIfNotExists (Ok []);
                         Query (UpdateTask (Some (status_text (Task.status task)))
                                           (Some (Task.title task))
                                           (Some (Task.id task))) r])
  /\
  (forall (w : World) (taskId : string),
     exists r, log (snd (deleteTaskFromDatabase taskId w)) =
               log w ++ [Query CreateTableIfNotExists (Ok []);
                         Query (DeleteTask (Some taskId)) r]).
Proof.
  split; [|split; [|split; [|split; [|split; [|split]]]]].
  - intros w. rewrite tableCreationIfDoesNotExist_eq. eexists.
    split; [reflexivity|]. cbn [settled store].
    split; [apply ensure_rows|]. split; [now rewrite ensure_some|].
    apply ensure_present.
  - intros w. rewrite !tableCreationIfDoesNotExist_eq. cbn [snd settled store].
    apply ensure_idem.
  - intros h w. rewrite !run_store.
    rewrite <- (ensure_rows (steps h (store w))).
    rewrite <- (ensure_rows (steps (without_schema_calls h) (store w))).
    f_equal. now apply steps_without_schema_calls.
  - intros w newTask. rewrite addNewTaskToDatabase_eq. eexists. reflexivity.
  - intros w. rewrite getTasksFromDatabase_eq. eexists. reflexivity.
  - intros w task. rewrite updateTaskInDatabase_eq. eexists. reflexivity.
  - intros w taskId. rewrite deleteTaskFromDatabase_eq. eexists. reflexivity.
Qed.

Lemma C6_schema_witness :
  store (snd (tableCreationIfDoesNotExist two_tasks)) = store two_tasks.
Proof.
  destruct (proj1 C6_schema_creation two_tasks) as (w' & Heq & _ & _ & Hsame).
  rewrite Heq. apply Hsame. vm_compute. discriminate.
Defined.

(** C7.  Ids.  After every history from a fresh deployment: the ids of the
    table increase strictly in the order the rows were inserted, so they
    are pairwise distinct; every id that was in the table at any earlier
    moment is positive and at most the current value of the sequence; the
    next value of the sequence is not a key of the table, and a task added
    now gets it, so its id is greater than every id ever stored, deleted or
    not; an update leaves the ids of the table as they are; and after any
    call, a row whose id had been drawn before the call is a row that was
    there before it, created at the same time. *)
Theorem C7_ids_unique_never_reused (h : list (Z * Call)) :
  let w := run h world0 in
  StronglySorted Z.lt (map id (rows_of (store w))) /\
  NoDup (map id (rows_of (store w))) /\
  (forall h1 h2 r,
     h = h1 ++ h2 ->
     In r (rows_of (store (run h1 world0))) ->
     0 < id r <= seq_of (store w)) /\
  has_id (seq_of (store w) + 1) (rows_of (store w)) = false /\
  (forall now newTask w',
     addNewTaskToDatabase newTask (at_time now w) = (Ok tt, w') ->
     exists r,
       rows_of (store w') = rows_of (store w) ++ [r] /\
       id r = seq_of (store w) + 1 /\
       seq_of (store w') = id r) /\
  (forall now task,
     map id (rows_of (store (snd (updateTaskInDatabase task (at_time now w)))))
     = map id (rows_of (store w))) /\
  (forall now c r',
     In r' (rows_of (store (snd (call c (at_time now w))))) ->
     id r' <= seq_of (store w) ->
     exists r,
       In r (rows_of (store w)) /\ id r = id r' /\ created_at r = created_at r').
Proof.
  cbv zeta. rewrite run_store. cbn [world0 store].
  pose proof (steps_ids_ok h None ids_ok_fresh) as (Hs & H0 & Hb).
  split; [exact Hs|]. split; [now apply sorted_lt_NoDup|].
  split; [|split; [|split; [|split]]].
  - intros h1 h2 r -> Hr. rewrite run_store in Hr. cbn [world0 store] in Hr.
    rewrite steps_app.
    pose proof (steps_ids_ok h1 None ids_ok_fresh) as (_ & _ & Hb1).
    rewrite Forall_forall in Hb1. specialize (Hb1 r Hr).
    pose proof (steps_seq_mono h2 (steps h1 None)). lia.
  - apply next_id_is_new. repeat split; assumption.
  - intros now newTask w'. rewrite addNewTaskToDatabase_eq. cbv zeta.
    cbn [at_time store clock]. rewrite run_store. cbn [world0 store].
    rewrite insert_cases.
    destruct (title_in newTask) as [ti|e]; cbn [fst snd void];
      [|discriminate].
    destruct (int4_max <=? _); cbn [fst snd void]; [discriminate|].
    destruct (has_id _ _); cbn [fst snd void]; [discriminate|].
    intros [= <-]. cbn [settled store rows_of rows seq_of last_value].
    eexists. split; [reflexivity|]. split; reflexivity.
  - intros now task. rewrite updateTaskInDatabase_eq. cbv zeta.
    cbn [snd settled at_time store clock]. rewrite run_store. cbn [world0 store].
    rewrite update_cases.
    destruct (update_params task) as [[x ti]|e];
      [|cbn [snd]; now rewrite ensure_rows].
    destruct (existsb _ _); cbn [snd]; [|now rewrite ensure_rows].
    cbn [rows_of rows]. apply rewrite_rows_ids.
  - intros now c r'. rewrite call_store. cbn [at_time store clock].
    rewrite run_store. cbn [world0 store].
    apply step_keeps_identity.
Qed.

Lemma C7_ids_witness :
  exists w' r,
    addNewTaskToDatabase "c" (at_time 40 (run sample_history world0)) = (Ok tt, w') /\
    rows_of (store w') = rows_of (store (run sample_history world0)) ++ [r] /\
    id r = 3.
Proof.
  destruct (C7_ids_unique_never_reused sample_history)
    as (_ & _ & _ & _ & Hadd & _ & _).
  destruct (Hadd 40 "c" (snd (addNewTaskToDatabase "c"
                                (at_time 40 (run sample_history world0)))))
    as (r & Hrows & Hid & _).
  - vm_compute. reflexivity.
  - eexists. exists r. split; [vm_compute; reflexivity|].
    split; [exact Hrows|]. rewrite Hid. vm_compute. reflexivity.
Defined.

(** C8.  Status and title.  Each call of the data access module keeps the
    property that every stored row has one of the two statuses
    IN_PROGRESS and COMPLETE and a title that is not NULL; it holds after
    every history from a fresh deployment; the two statuses are different
    values; and a row is created with status IN_PROGRESS. *)
Theorem C8_status_and_title_invariant :
  (forall (w : World) (c : Call),
     Forall row_valid (rows_of (store w)) ->
     Forall row_valid (rows_of (store (snd (call c w)))))
  /\
  (forall h : list (Z * Call),
     Forall row_valid (rows_of (store (run h world0))))
  /\
  status_text IN_PROGRESS <> status_text COMPLETE
  /\
  (forall (w : World) (newTask : string) (w' : World),
     addNewTaskToDatabase newTask w = (Ok tt, w') ->
     exists r,
       rows_of (store w') = rows_of (store w) ++ [r] /\
       status r = Some (status_text IN_PROGRESS)).
Proof.
  split; [|split; [|split]].
  - intros w c Hv. rewrite call_store. now apply step_rows_valid.
  - intros h. rewrite run_store. cbn [world0 store].
    generalize (Forall_nil row_valid). change (@nil Row) with (rows_of None).
    generalize (@None Table).
    induction h as [|[now c] h IH]; intros db Hv; simpl; [exact Hv|].
    apply IH, step_rows_valid, Hv.
  - discriminate.
  - intros w newTask w'. rewrite addNewTaskToDatabase_eq. cbv zeta.
    rewrite insert_cases.
    destruct (title_in newTask) as [ti|e]; cbn [fst snd void];
      [|discriminate].
    destruct (int4_max <=? _); cbn [fst snd void]; [discriminate|].
    destruct (has_id _ _); cbn [fst snd void]; [discriminate|].
    intros [= <-]. cbn [settled store rows_of rows].
    eexists. split; reflexivity.
Qed.

Lemma C8_status_and_title_witness :
  Forall row_valid
    (rows_of (store (snd (call (UpdateTaskCall (Task.mk "1" "A" COMPLETE)) two_tasks)))).
Proof.
  apply (proj1 C8_status_and_title_invariant).
  vm_compute.
  repeat (constructor; [split; [left; reflexivity | discriminate]|]).
  constructor.
Defined.

(** C9.  The page.  Each handler first awaits its mutation and then, with
    no test in between, fetches the whole list and stores it in [tasks];
    [handleSubmit] clears [newTaskTitle] last, after the insert has
    resolved and the list has been stored.  When the mutation is rejected
    the handler stops there: nothing is fetched and the page state is as it
    was.  The log gives the order. *)
Theorem C9_mutate_then_refetch :
  (forall w : World,
     match handleSubmit w with
     | (Ok _, w') =>
         exists rs,
           log w' = log w ++ [PreventDefault;
                              Query CreateTableIfNotExists (Ok []);
                              Query (InsertTask (Some (newTaskTitle w))) (Ok []);
                              Query CreateTableIfNotExists (Ok []);
                              Query SelectTasks (Ok rs);
                              SetTasks rs;
                              SetNewTaskTitle ""] /\
           fst (getTasksFromDatabase w') = Ok rs /\
           tasks w' = rs /\
           newTaskTitle w' = ""
     | (Throw e, w') =>
         log w' = log w ++ [PreventDefault;
                            Query CreateTableIfNotExists (Ok []);
                            Query (InsertTask (Some (newTaskTitle w))) (Throw e)] /\
         tasks w' = tasks w /\
         newTaskTitle w' = newTaskTitle w
     end)
  /\
  (forall (w : World) (task : Task.t) (newTaskValues : PartialTask.t),
     let t := spread task newTaskValues in
     let s := UpdateTask (Some (status_text (Task.status t)))
                         (Some (Task.title t)) (Some (Task.id t)) in
     match updateTask task newTaskValues w with
     | (Ok _, w') =>
         exists rs,
           log w' = log w ++ [Query CreateTableIfNotExists (Ok []);
                              Query s (Ok []);
                              Query CreateTableIfNotExists (Ok []);
                              Query SelectTasks (Ok rs);
                              SetTasks rs] /\
           fst (getTasksFromDatabase w') = Ok rs /\
           tasks w' = rs
     | (Throw e, w') =>
         log w' = log w ++ [Query CreateTableIfNotExists (Ok []);
                            Query s (Throw e)] /\
         tasks w' = tasks w
     end)
  /\
  (forall (w : World) (taskId : string),
     match deleteTask taskId w with
     | (Ok _, w') =>
         exists rs,
           log w' = log w ++ [Query CreateTableIfNotExists (Ok []);
                              Query (DeleteTask (Some taskId)) (Ok []);
                              Query CreateTableIfNotExists (Ok []);
                              Query SelectTasks (Ok rs);
                              SetTasks rs] /\
           fst (getTasksFromDatabase w') = Ok rs /\
           tasks w' = rs
     | (Throw e, w') =>
         log w' = log w ++ [Query CreateTableIfNotExists (Ok []);
                            Query (DeleteTask (Some taskId)) (Throw e)] /\
         tasks w' = tasks w
     end).
Proof.
  split; [|split].
  - intros w. unfold handleSubmit. unfold bind at 1. unfold preventDefault.
    rewrite bind_assoc. unfold bind at 1.
    change (addNewTaskToDatabase (newTaskTitle w))
      with (mutation (InsertTask (Some (newTaskTitle w)))).
    rewrite mutate_then_getTasks. cbn [record store clock newTaskTitle tasks log exec].
    destruct (insert_task (clock w) (Some (newTaskTitle w)) (ensure (store w)))
      as [[l|e] db] eqn:E.
    + apply insert_result in E. destruct E as [-> Hdb].
      unfold setNewTaskTitle, record. cbn [store clock newTaskTitle tasks log].
      exists (listing db). rewrite <- !app_assoc.
      split; [reflexivity|].
      rewrite getTasksFromDatabase_eq. cbn [fst store]. rewrite listing_ensure.
      repeat split.
    + unfold settled, record. cbn [store clock newTaskTitle tasks log].
      rewrite <- !app_assoc. repeat split.
  - intros w task newTaskValues. cbv zeta. unfold updateTask.
    change (updateTaskInDatabase (spread task newTaskValues))
      with (mutation (update_stmt (spread task newTaskValues))).
    rewrite mutate_then_getTasks. fold (update_stmt (spread task newTaskValues)).
    destruct (exec (clock w) (update_stmt (spread task newTaskValues))
                (ensure (store w))) as [[l|e] db] eqn:E.
    + apply update_result in E. destruct E as [-> Hdb].
      exists (listing db). split; [reflexivity|].
      rewrite getTasksFromDatabase_eq. cbn [fst store tasks].
      rewrite listing_ensure. split; reflexivity.
    + split; reflexivity.
  - intros w taskId. unfold deleteTask.
    change (deleteTaskFromDatabase taskId) with (mutation (DeleteTask (Some taskId))).
    rewrite mutate_then_getTasks. cbn [exec].
    destruct (delete_task (Some taskId) (ensure (store w))) as [[l|e] db] eqn:E.
    + apply delete_result in E. destruct E as [-> Hdb].
      exists (listing db). split; [reflexivity|].
      rewrite getTasksFromDatabase_eq. cbn [fst store tasks].
      rewrite listing_ensure. split; reflexivity.
    + split; reflexivity.
Qed.

(** C10, as stated, fails on the code.  A title of 1025 characters whose
    last character is a space is longer than the bound, yet the insert
    succeeds: the store cuts the trailing space and the table gains a
    row.  And a title within the bound that holds U+0000 does not satisfy
    the store: the insert is rejected. *)
Lemma C10_title_bound_counterexample :
  let t := (str_repeat "a" 1024 ++ " ")%string in
  let u := String "a" (String zero "b") in
  String.length t = 1025%nat /\
  fst (addNewTaskToDatabase t world0) = Ok tt /\
  rows_of (store (snd (addNewTaskToDatabase t world0))) =
  [mkRow 1 0 (Some "IN_PROGRESS") (Some (str_repeat "a" 1024))] /\
  String.length u = 3%nat /\
  fst (addNewTaskToDatabase u world0) = Throw character_not_in_repertoire.
Proof. vm_compute. repeat split. Qed.

(** C10, amended.  The bound of the title column is 1024 characters.
    After every history from a fresh deployment, for a title that holds no
    U+0000: while the sequence of ids is not at its end, a title of at
    most 1024 characters is inserted as it is; a longer title with a
    character other than a space beyond the 1024th is rejected by the
    store with the too-long-value error, and the table keeps its rows and
    its sequence; a longer title whose characters beyond the 1024th are
    all spaces is inserted cut to its first 1024 characters, while the
    sequence is not at its end.  A title that holds U+0000 is rejected,
    whatever its length, and at the end of the sequence every title is; the
    table keeps its rows and its sequence. *)
Theorem C10_title_bound (h : list (Z * Call)) (now : Z) (newTask : string) :
  let w := at_time now (run h world0) in
  title_max = 1024%nat /\
  (has_nul newTask = false ->
   ((String.length newTask <= 1024)%nat ->
    seq_of (store w) < int4_max ->
    exists w',
      addNewTaskToDatabase newTask w = (Ok tt, w') /\
      rows_of (store w') =
      rows_of (store w) ++
      [mkRow (seq_of (store w) + 1) now (Some "IN_PROGRESS") (Some newTask)])
   /\
   ((1024 < String.length newTask)%nat ->
    all_spaces (str_drop 1024 newTask) = false ->
    exists w',
      addNewTaskToDatabase newTask w = (Throw string_data_right_truncation, w') /\
      rows_of (store w') = rows_of (store w) /\
      seq_of (store w') = seq_of (store w))
   /\
   ((1024 < String.length newTask)%nat ->
    all_spaces (str_drop 1024 newTask) = true ->
    seq_of (store w) < int4_max ->
    exists w',
      addNewTaskToDatabase newTask w = (Ok tt, w') /\
      rows_of (store w') =
      rows_of (store w) ++
      [mkRow (seq_of (store w) + 1) now (Some "IN_PROGRESS")
             (Some (str_take 1024 newTask))]))
  /\
  (has_nul newTask = true ->
   exists w',
     addNewTaskToDatabase newTask w = (Throw character_not_in_repertoire, w') /\
     rows_of (store w') = rows_of (store w) /\
     seq_of (store w') = seq_of (store w))
  /\
  (seq_of (store w) = int4_max ->
   exists e w',
     addNewTaskToDatabase newTask w = (Throw e, w') /\
     rows_of (store w') = rows_of (store w) /\
     seq_of (store w') = seq_of (store w)).
Proof.
  intros w. split; [reflexivity|].
  rewrite addNewTaskToDatabase_eq. cbv zeta. rewrite insert_cases.
  rewrite (next_id_is_new (store w)) by apply (run_ids_ok h).
  change 1024%nat with title_max. unfold title_in.
  split; [|split].
  - intros ->. split; [|split].
    + intros Hfit Hseq. rewrite (varchar_fits _ _ Hfit).
      destruct (Z.leb_spec int4_max (seq_of (store w))) as [Hend|_]; [lia|].
      eexists. split; reflexivity.
    + intros Hlong Htail. rewrite (varchar_overflow _ _ Hlong Htail).
      eexists. split; [reflexivity|]. cbn [snd settled store].
      split; [apply ensure_rows | apply ensure_seq].
    + intros Hlong Htail Hseq. rewrite (varchar_blank_tail _ _ Hlong Htail).
      destruct (Z.leb_spec int4_max (seq_of (store w))) as [Hend|_]; [lia|].
      eexists. split; reflexivity.
  - intros ->. eexists. split; [reflexivity|]. cbn [snd settled store].
    split; [apply ensure_rows | apply ensure_seq].
  - intros Hend. rewrite Hend, Z.leb_refl.
    destruct (has_nul newTask); [|destruct (varchar title_max newTask)];
      eexists; eexists; (split; [reflexivity|]); cbn [snd settled store];
      (split; [apply ensure_rows | now rewrite ensure_seq]).
Qed.

Lemma C10_title_bound_witness :
  (exists w',
      addNewTaskToDatabase "Buy milk" world0 = (Ok tt, w') /\
      rows_of (store w') = [mkRow 1 0 (Some "IN_PROGRESS") (Some "Buy milk")]) /\
  (exists w',
      addNewTaskToDatabase (str_repeat "x" 1025) (at_time 30 two_tasks)
      = (Throw string_data_right_truncation, w') /\
      rows_of (store w') = rows_of (store two_tasks)) /\
  (exists w',
      addNewTaskToDatabase (str_repeat "a" 1024 ++ " ")%string world0 = (Ok tt, w') /\
      rows_of (store w') =
      [mkRow 1 0 (Some "IN_PROGRESS")
             (Some (str_take 1024 (str_repeat "a" 1024 ++ " ")%string))]) /\
  (exists w',
      addNewTaskToDatabase (String "a" (String zero "b")) (at_time 30 two_tasks)
      = (Throw character_not_in_repertoire, w') /\
      rows_of (store w') = rows_of (store two_tasks)).
Proof.
  split; [|split; [|split]].
  - destruct (C10_title_bound [] 0 "Buy milk") as (_ & Hclean & _).
    destruct (Hclean eq_refl) as (Hfit & _).
    apply Hfit; [simpl; lia | vm_compute; reflexivity].
  - destruct (C10_title_bound [(10, AddTask "a"); (20, AddTask "b")] 30
                (str_repeat "x" 1025)) as (_ & Hclean & _).
    destruct Hclean as (_ & Hlong & _); [vm_compute; reflexivity|].
    destruct Hlong as (w' & Hadd & Hrows & _).
    + rewrite str_repeat_length. lia.
    + vm_compute. reflexivity.
    + exists w'. split; [exact Hadd | exact Hrows].
  - destruct (C10_title_bound [] 0 (str_repeat "a" 1024 ++ " ")%string)
      as (_ & Hclean & _).
    destruct Hclean as (_ & _ & Hblank); [vm_compute; reflexivity|].
    apply Hblank.
    + vm_compute. apply le_n.
    + vm_compute. reflexivity.
    + vm_compute. reflexivity.
  - destruct (C10_title_bound [(10, AddTask "a"); (20, AddTask "b")] 30
                (String "a" (String zero "b"))) as (_ & _ & Hnul & _).
    destruct Hnul as (w' & Hadd & Hrows & _); [reflexivity|].
    exists w'. split; [exact Hadd | exact Hrows].
Defined.

(** * Further facts *)

(** **** What the store can reject *)

Lemma varchar_errors (n : nat) (s : string) (e : SqlError) :
  varchar n s = Throw e -> e = string_data_right_truncation.
Proof.
  unfold varchar. destruct (_ <=? _)%nat; [discriminate|].
  destruct (all_spaces _); [discriminate|]. now intros [= <-].
Qed.

Lemma varchar_rejects_long (n : nat) (s : string) (e : SqlError) :
  varchar n s = Throw e -> (n < String.length s)%nat.
Proof.
  unfold varchar. destruct (Nat.leb_spec (String.length s) n); [discriminate|].
  now intros _.
Qed.

Lemma steps_seq_bounded (h : list (Z * Call)) (db : DB) :
  seq_of db <= int4_max -> seq_of (steps h db) <= int4_max.
Proof.
  revert db. induction h as [|[now c] h IH]; intros db Hmax; simpl; [exact Hmax|].
  apply IH, step_seq_bounded, Hmax.
Qed.

Lemma run_seq_bounded (h : list (Z * Call)) :
  seq_of (store (run h world0)) <= int4_max.
Proof.
  rewrite run_store. apply steps_seq_bounded. cbn [world0 store seq_of].
  unfold int4_max. lia.
Qed.

Lemma int4in_errors (s : string) (e : SqlError) :
  int4in s = Throw e ->
  e = invalid_text_representation \/ e = numeric_value_out_of_range.
Proof.
  unfold int4in.
  match goal with
  | |- context [let '(_, _) := ?X in _] => destruct X as [neg s2]
  end.
  destruct s2 as [|c s2]; [intros [= <-]; now left|].
  destruct (isdigit c); [|intros [= <-]; now left].
  destruct (read_digits 0 (String c s2)) as [v s3].
  destruct (int4_max + 1 <? v); [intros [= <-]; now right|].
  destruct (skip_spaces s3); [|intros [= <-]; now left].
  destruct neg; [discriminate|].
  destruct (v <=? int4_max); [discriminate|]. intros [= <-]. now right.
Qed.

Lemma table_of_eta (db : DB) : table_of db = mkTable (rows_of db) (seq_of db).
Proof. destruct db as [[l n]|]; reflexivity. Qed.

Lemma ensure_eta (db : DB) : ensure db = Some (mkTable (rows_of db) (seq_of db)).
Proof. now rewrite ensure_some, table_of_eta. Qed.

(** **** The store after an update and after a delete *)

Lemma update_store (task : Task.t) (w : World) :
  store (snd (updateTaskInDatabase task w)) =
  Some (mkTable (updated_rows task (rows_of (store w))) (seq_of (store w))).
Proof.
  rewrite updateTaskInDatabase_eq. cbv zeta. cbn [snd settled store].
  rewrite update_cases. unfold updated_rows.
  destruct (update_params task) as [[x ti]|e]; [|apply ensure_eta].
  destruct (existsb _ _) eqn:Hex; cbn [snd]; [reflexivity|].
  rewrite (existsb_none_map _ _ _ _ Hex). apply ensure_eta.
Qed.

Lemma delete_store (taskId : string) (w : World) :
  store (snd (deleteTaskFromDatabase taskId w)) =
  Some (mkTable (deleted_rows taskId (rows_of (store w))) (seq_of (store w))).
Proof.
  rewrite deleteTaskFromDatabase_eq. cbv zeta. cbn [snd settled store].
  rewrite delete_cases. unfold deleted_rows.
  destruct (int4_text taskId) as [x|e]; [reflexivity | apply ensure_eta].
Qed.

Lemma rewrite_row_twice (x : Z) (st1 st2 : Status) (ti1 ti2 : string) (r : Row) :
  rewrite_row x st2 ti2 (rewrite_row x st1 ti1 r) = rewrite_row x st2 ti2 r.
Proof.
  unfold rewrite_row. destruct (id r =? x) eqn:E; cbn [set_status_title id].
  - now rewrite E.
  - now rewrite E.
Qed.

Lemma updated_rows_twice (t1 t2 : Task.t) (l : list Row) :
  Task.id t1 = Task.id t2 ->
  has_nul (Task.title t2) = false ->
  (String.length (Task.title t2) <= title_max)%nat ->
  updated_rows t2 (updated_rows t1 l) = updated_rows t2 l.
Proof.
  intros Hid Hnul Hfit. unfold updated_rows.
  destruct (update_params t1) as [[x1 ti1]|e1] eqn:E1; [|reflexivity].
  apply update_params_id in E1. rewrite Hid in E1.
  rewrite (update_params_ok t2 x1 E1 Hnul Hfit).
  rewrite map_map. apply map_ext. intros r. apply rewrite_row_twice.
Qed.

Lemma filter_rewrite_rows (y x : Z) (st : Status) (ti : string) (l : list Row) :
  filter (fun r => negb (id r =? y)) (map (rewrite_row x st ti) l) =
  map (rewrite_row x st ti) (filter (fun r => negb (id r =? y)) l).
Proof.
  induction l as [|r l IH]; simpl; [reflexivity|].
  assert (E : id (rewrite_row x st ti r) = id r).
  { unfold rewrite_row. now destruct (id r =? x). }
  rewrite E. destruct (negb (id r =? y)); simpl; now rewrite IH.
Qed.

Lemma deleted_updated_rows (taskId : string) (task : Task.t) (l : list Row) :
  deleted_rows taskId (updated_rows task l) =
  updated_rows task (deleted_rows taskId l).
Proof.
  unfold deleted_rows, updated_rows.
  destruct (int4_text taskId) as [y|e]; [|reflexivity].
  destruct (update_params task) as [[x ti]|e]; [|reflexivity].
  apply filter_rewrite_rows.
Qed.

Lemma deleted_rows_twice (a b : string) (l : list Row) :
  deleted_rows a (deleted_rows b l) = deleted_rows b (deleted_rows a l).
Proof.
  unfold deleted_rows.
  destruct (int4_text a) as [x|e]; destruct (int4_text b) as [y|e']; try reflexivity.
  induction l as [|r l IH]; simpl; [reflexivity|].
  destruct (negb (id r =? y)) eqn:Ey; destruct (negb (id r =? x)) eqn:Ex;
    simpl; rewrite ?Ex, ?Ey; now rewrite ?IH.
Qed.

(** A statement that the store rejects changes no row. *)
Lemma step_rejected (now : Z) (c : Call) (db : DB) (e : SqlError) :
  outcome now c db = Throw e -> rows_of (step now c db) = rows_of db.
Proof.
  unfold outcome, step. destruct c; cbn [stmt_of exec].
  - fold (ensure (ensure db)). now rewrite ensure_idem, ensure_rows.
  - rewrite insert_cases. destruct (title_in title0); cbn [fst snd void].
    + destruct (int4_max <=? _); cbn [fst snd void]; [intros _; apply ensure_rows|].
      destruct (has_id _ _); cbn [fst snd void]; [reflexivity | discriminate].
    + intros _. apply ensure_rows.
  - rewrite ensure_some. discriminate.
  - rewrite update_cases. destruct (update_params task) as [[x ti]|e'];
      [|intros _; apply ensure_rows].
    destruct (existsb _ _); discriminate.
  - rewrite delete_cases. destruct (int4_text taskId); [discriminate|].
    intros _. apply ensure_rows.
Qed.

Lemma call_settles (c : Call) (w : World) :
  fst (call c w) = outcome (clock w) c (store w).
Proof. destruct (call_eq c w) as [evs [E _]]. now rewrite E. Qed.

Lemma update_outcome (task : Task.t) (w : World) :
  fst (updateTaskInDatabase task w) = void (update_params task).
Proof.
  rewrite updateTaskInDatabase_eq. cbv zeta. cbn [fst]. rewrite update_cases.
  destruct (update_params task) as [[x ti]|e]; [|reflexivity].
  now destruct (existsb _ _).
Qed.

Lemma delete_outcome (taskId : string) (w : World) :
  fst (deleteTaskFromDatabase taskId w) = void (int4_text taskId).
Proof.
  rewrite deleteTaskFromDatabase_eq. cbv zeta. cbn [fst]. rewrite delete_cases.
  now destruct (int4_text taskId).
Qed.

(** **** Two listings of the same table *)

Lemma admissible_in (l rs : list Row) (r : Row) :
  admissible_listing l rs -> In r rs -> In r l.
Proof.
  intros (s & Hperm & _ & ->) Hr.
  eapply Permutation_in; [exact Hperm|].
  rewrite <- (firstn_skipn list_limit s). apply in_or_app. now left.
Qed.

Lemma admissible_rows_in (l out : list Row) (r : Row) :
  admissible_rows l out -> In r out -> exists r0, In r0 l /\ r = parse_row r0.
Proof.
  intros (rs & Hrs & ->) Hr. apply in_map_iff in Hr. destruct Hr as (r0 & <- & Hr0).
  exists r0. split; [eapply admissible_in; eassumption | reflexivity].
Qed.

Lemma listing_in (db : DB) (r : Row) :
  In r (listing db) -> exists r0, In r0 (rows_of db) /\ r = parse_row r0.
Proof. apply admissible_rows_in, listing_admissible. Qed.

Lemma descending_unique (k1 k2 : list Z) :
  StronglySorted (fun a b => b <= a) k1 ->
  StronglySorted (fun a b => b <= a) k2 ->
  Permutation k1 k2 ->
  k1 = k2.
Proof.
  intros H1. revert k2. induction H1 as [|a k1 Hs IH Ha]; intros k2 H2 Hperm.
  - apply Permutation_nil in Hperm. now subst.
  - destruct k2 as [|b k2].
    { apply Permutation_sym, Permutation_nil in Hperm. discriminate. }
    apply StronglySorted_inv in H2. destruct H2 as [H2 Hb].
    rewrite Forall_forall in Ha, Hb.
    assert (E : a = b).
    { assert (Hab : In a (b :: k2)) by (eapply Permutation_in; [exact Hperm | now left]).
      assert (Hba : In b (a :: k1)).
      { eapply Permutation_in; [apply Permutation_sym, Hperm | now left]. }
      destruct Hab as [->|Hab]; [reflexivity|].
      destruct Hba as [->|Hba]; [reflexivity|].
      specialize (Ha b Hba). specialize (Hb a Hab). lia. }
    subst b. f_equal. apply IH; [exact H2|].
    eapply Permutation_cons_inv, Hperm.
Qed.

Lemma sorted_times (s : list Row) :
  StronglySorted newer_or_same s ->
  StronglySorted (fun a b => b <= a) (map created_at s).
Proof.
  induction 1 as [|a s Hs IH Ha]; simpl; constructor; [exact IH|].
  rewrite Forall_forall in *. intros t Ht.
  apply in_map_iff in Ht. destruct Ht as (r & <- & Hr). now apply Ha.
Qed.

Lemma same_key_same_row (k : Row -> Z) (l : list Row) (a b : Row) :
  NoDup (map k l) -> In a l -> In b l -> k a = k b -> a = b.
Proof.
  induction l as [|x l IH]; simpl; intros Hnd Ha Hb E; [contradiction|].
  inversion Hnd as [|? ? Hnotin Hnd']; subst.
  destruct Ha as [->|Ha]; destruct Hb as [->|Hb]; auto.
  - exfalso. apply Hnotin. rewrite E. now apply in_map.
  - exfalso. apply Hnotin. rewrite <- E. now apply in_map.
Qed.

Lemma same_times_same_rows (l rs rs' : list Row) :
  NoDup (map created_at l) ->
  (forall r, In r rs -> In r l) ->
  (forall r, In r rs' -> In r l) ->
  map created_at rs = map created_at rs' ->
  rs = rs'.
Proof.
  intros Hnd. revert rs'. induction rs as [|a rs IH]; intros [|b rs'] H1 H2 E;
    simpl in E; try discriminate; [reflexivity|].
  injection E as Eab E. f_equal.
  - apply (same_key_same_row created_at l); auto.
    + apply H1. now left.
    + apply H2. now left.
  - apply IH; auto.
    + intros r Hr. apply H1. now right.
    + intros r Hr. apply H2. now right.
Qed.

Lemma listings_agree (l rs' rs : list Row) :
  admissible_listing l rs' ->
  admissible_listing l rs ->
  map created_at rs' = map created_at rs /\
  (NoDup (map created_at l) -> rs' = rs).
Proof.
  intros H' H.
  assert (Htimes : map created_at rs' = map created_at rs).
  { destruct H' as (s' & Hperm' & Hsorted' & ->).
    destruct H as (s & Hperm & Hsorted & ->).
    rewrite <- !firstn_map. f_equal.
    apply descending_unique; try now apply sorted_times.
    apply Permutation_map.
    eapply perm_trans; [exact Hperm' | apply Permutation_sym, Hperm]. }
  split; [exact Htimes|].
  intros Hnd. apply (same_times_same_rows l); auto.
  - intros r. now apply admissible_in.
  - intros r. now apply admissible_in.
Qed.

Lemma received_agree (l out' out : list Row) :
  admissible_rows l out' ->
  admissible_rows l out ->
  map created_at out' = map created_at out /\
  (NoDup (map created_at l) -> out' = out).
Proof.
  intros (rs' & H' & ->) (rs & H & ->).
  destruct (listings_agree l rs' rs H' H) as [Htimes Hsame]. split.
  - now rewrite !parse_rows_times, Htimes.
  - intros Hnd. now rewrite (Hsame Hnd).
Qed.

(** * Further properties of the code *)

(** X1.  Listing only reads.  [getTasksFromDatabase] always resolves; it
    leaves the rows, the sequence and the state of the page as they are;
    every row it returns is a row of the table, parsed, and it returns
    none exactly when the table is empty or not yet there.  Any other
    listing of the same table, such as a repeated one, has the same times
    of creation in the same places, and is the same list when the times of
    creation of the table are pairwise distinct: listings differ at most
    in the order of rows created at the same time. *)
Theorem X1_listing_only_reads (w : World) :
  exists rs w1,
    getTasksFromDatabase w = (Ok rs, w1) /\
    rows_of (store w1) = rows_of (store w) /\
    seq_of (store w1) = seq_of (store w) /\
    tasks w1 = tasks w /\
    newTaskTitle w1 = newTaskTitle w /\
    (forall r, In r rs ->
       exists r0, In r0 (rows_of (store w)) /\ r = parse_row r0) /\
    (rows_of (store w) = [] <-> rs = []) /\
    forall rs',
      admissible_rows (rows_of (store w1)) rs' ->
      map created_at rs' = map created_at rs /\
      (NoDup (map created_at (rows_of (store w))) -> rs' = rs).
Proof.
  rewrite getTasksFromDatabase_eq. eexists. eexists. split; [reflexivity|].
  cbn [settled store tasks newTaskTitle].
  split; [apply ensure_rows|]. split; [apply ensure_seq|].
  split; [reflexivity|]. split; [reflexivity|].
  split; [|split].
  - apply listing_in.
  - unfold listing, selected. split.
    + now intros ->.
    + intros Hnil. apply map_eq_nil in Hnil.
      destruct (rows_of (store w)) as [|r l] eqn:E; [reflexivity|].
      exfalso.
      assert (Hlen : List.length (firstn list_limit (order_by_created_at_desc (r :: l)))
                     = Nat.min list_limit (List.length (r :: l))).
      { rewrite length_firstn. f_equal. apply Permutation_length, order_by_perm. }
      rewrite Hnil in Hlen. unfold list_limit in Hlen. simpl in Hlen. discriminate.
  - intros rs' Hrs'. rewrite ensure_rows in Hrs'.
    apply (received_agree (rows_of (store w))); [exact Hrs' | apply listing_admissible].
Qed.

(** X2.  A rejected call changes no row.  When a call of the data access
    module is rejected by the store, the table has the rows it had, and the
    state of the page is as it was. *)
Theorem X2_rejected_call_changes_no_row (w : World) (c : Call) (e : SqlError) :
  fst (call c w) = Throw e ->
  rows_of (store (snd (call c w))) = rows_of (store w) /\
  tasks (snd (call c w)) = tasks w /\
  newTaskTitle (snd (call c w)) = newTaskTitle w.
Proof.
  intros Hthrow. rewrite call_settles in Hthrow.
  destruct (call_eq c w) as [evs [E _]]. rewrite E. cbn [snd settled store tasks newTaskTitle].
  split; [|split; reflexivity].
  eapply step_rejected, Hthrow.
Qed.

Lemma X2_rejected_call_witness :
  rows_of (store (snd (call (AddTask (str_repeat "x" 1025)) two_tasks)))
  = rows_of (store two_tasks).
Proof.
  apply (X2_rejected_call_changes_no_row two_tasks (AddTask (str_repeat "x" 1025))
           string_data_right_truncation).
  vm_compute. reflexivity.
Defined.

(** X3.  What can be rejected, and why.  After every history from a
    fresh deployment: schema creation and listing are never rejected; an
    add is rejected only for a title that holds U+0000, for a title that
    is too long, or because the sequence of ids is at its end; a delete
    only for an id that holds U+0000, is not the text of an integer or is
    out of the range of integers; an update only for one of these reasons
    of its title or its id.  No call is ever rejected because the table
    does not exist, because a value is NULL or because a key is taken. *)
Theorem X3_what_can_be_rejected
    (h : list (Z * Call)) (now : Z) (c : Call) (e : SqlError) :
  fst (call c (at_time now (run h world0))) = Throw e ->
  match c with
  | EnsureSchema | ListTasks => False
  | AddTask title =>
      (e = character_not_in_repertoire /\ has_nul title = true) \/
      (e = string_data_right_truncation /\
       (title_max < String.length title)%nat) \/
      (e = sequence_generator_limit_exceeded /\
       seq_of (store (run h world0)) = int4_max)
  | DeleteTaskCall taskId =>
      (e = character_not_in_repertoire /\ has_nul taskId = true) \/
      ((e = invalid_text_representation \/ e = numeric_value_out_of_range) /\
       int4in taskId = Throw e)
  | UpdateTaskCall task =>
      (e = character_not_in_repertoire /\
       (has_nul (Task.title task) = true \/ has_nul (Task.id task) = true)) \/
      ((e = invalid_text_representation \/ e = numeric_value_out_of_range) /\
       int4in (Task.id task) = Throw e) \/
      (e = string_data_right_truncation /\
       (title_max < String.length (Task.title task))%nat)
  end.
Proof.
  rewrite call_settles. unfold outcome. cbn [at_time clock store].
  destruct c; cbn [stmt_of exec].
  - rewrite ensure_some. discriminate.
  - rewrite insert_cases.
    rewrite (next_id_is_new (store (run h world0))) by apply run_ids_ok.
    unfold title_in. destruct (has_nul title0) eqn:Hnul.
    { intros [= <-]. left. now split. }
    destruct (varchar title_max title0) eqn:E.
    + destruct (Z.leb_spec int4_max (seq_of (store (run h world0)))) as [Hend|_];
        [|discriminate].
      intros [= <-]. right. right. split; [reflexivity|].
      pose proof (run_seq_bounded h). lia.
    + intros [= <-]. right. left.
      split; [eapply varchar_errors, E | eapply varchar_rejects_long, E].
  - rewrite ensure_some. discriminate.
  - rewrite update_cases. unfold update_params.
    destruct (has_nul (Task.title task)) eqn:Hnul.
    { intros [= <-]. left. split; [reflexivity | now left]. }
    destruct (int4_text (Task.id task)) eqn:E.
    + destruct (varchar title_max (Task.title task)) eqn:E'.
      * destruct (existsb _ _); discriminate.
      * intros [= <-]. right. right.
        split; [eapply varchar_errors, E' | eapply varchar_rejects_long, E'].
    + intros [= <-]. destruct (int4_text_errors _ _ E) as [[Hid ->]|[_ Hin]].
      * left. split; [reflexivity | now right].
      * right. left. split; [eapply int4in_errors, Hin | exact Hin].
  - rewrite delete_cases. destruct (int4_text taskId) eqn:E; [discriminate|].
    intros [= <-]. destruct (int4_text_errors _ _ E) as [[Hid ->]|[_ Hin]].
    + left. now split.
    + right. split; [eapply int4in_errors, Hin | exact Hin].
Qed.

Lemma X3_what_can_be_rejected_witness :
  fst (call (DeleteTaskCall "abc") (at_time 40 (run sample_history world0)))
  = Throw invalid_text_representation /\
  ((invalid_text_representation = character_not_in_repertoire /\
    has_nul "abc" = true) \/
   ((invalid_text_representation = invalid_text_representation \/
     invalid_text_representation = numeric_value_out_of_range) /\
    int4in "abc" = Throw invalid_text_representation)).
Proof.
  split; [vm_compute; reflexivity|].
  apply (X3_what_can_be_rejected sample_history 40 (DeleteTaskCall "abc")).
  vm_compute. reflexivity.
Defined.

Lemma ids_below_next (db : DB) (r : Row) :
  ids_ok db -> In r (rows_of db) -> id r <> seq_of db + 1.
Proof.
  intros (_ & _ & Hb) Hr. rewrite Forall_forall in Hb. specialize (Hb r Hr). lia.
Qed.

(** X4.  Add, then delete.  After every history from a fresh deployment,
    while the sequence of ids is not at its end, adding a task with a
    title that fits and holds no U+0000 and then deleting it by its id
    leaves the rows of the table as they were before the add; the sequence
    has moved on, so the id is not given out again. *)
Theorem X4_add_then_delete
    (h : list (Z * Call)) (now later : Z) (newTask : string) :
  let w := at_time now (run h world0) in
  (String.length newTask <= title_max)%nat ->
  has_nul newTask = false ->
  seq_of (store w) + 1 <= int4_max ->
  exists w1 w2,
    addNewTaskToDatabase newTask w = (Ok tt, w1) /\
    deleteTaskFromDatabase (number_text (seq_of (store w) + 1)) (at_time later w1)
    = (Ok tt, w2) /\
    rows_of (store w2) = rows_of (store w) /\
    seq_of (store w2) = seq_of (store w) + 1.
Proof.
  intros w Hfit Hnul Hrange.
  pose proof (run_ids_ok h) as Hok. change (store (run h world0)) with (store w) in Hok.
  assert (Hread : int4_text (number_text (seq_of (store w) + 1))
                  = Ok (seq_of (store w) + 1)).
  { apply int4_text_ok, int4in_number_text. destruct Hok as (_ & H0 & _). lia. }
  rewrite addNewTaskToDatabase_eq. cbv zeta.
  rewrite insert_cases, (title_in_fits _ Hnul Hfit), (next_id_is_new _ Hok).
  destruct (Z.leb_spec int4_max (seq_of (store w))) as [Hend|_]; [lia|].
  cbn [fst snd void]. eexists.
  pose proof (delete_outcome (number_text (seq_of (store w) + 1))) as Hout.
  pose proof (delete_store (number_text (seq_of (store w) + 1))) as Hst.
  match goal with
  | |- exists w2, _ = (_, ?w1) /\ _ =>
      specialize (Hout (at_time later w1)); specialize (Hst (at_time later w1))
  end.
  rewrite Hread in Hout. unfold deleted_rows in Hst. rewrite Hread in Hst.
  cbn [at_time settled store rows_of rows seq_of last_value void] in Hst, Hout.
  destruct (deleteTaskFromDatabase _ _) as [r w2]. cbn [fst snd] in *. subst r.
  exists w2. split; [reflexivity|]. split; [reflexivity|].
  rewrite Hst. unfold settled. cbn [store rows_of rows seq_of last_value].
  split; [|reflexivity].
  rewrite filter_app. cbn [filter id]. rewrite Z.eqb_refl. cbn [negb].
  rewrite app_nil_r. apply filter_none.
  intros r Hr. now apply ids_below_next.
Qed.

Lemma X4_add_then_delete_witness :
  exists w1 w2,
    addNewTaskToDatabase "c" (at_time 30 two_tasks) = (Ok tt, w1) /\
    deleteTaskFromDatabase (number_text 3) (at_time 31 w1) = (Ok tt, w2) /\
    rows_of (store w2) = rows_of (store two_tasks) /\
    seq_of (store w2) = 3.
Proof.
  destruct (X4_add_then_delete [(10, AddTask "a"); (20, AddTask "b")] 30 31 "c")
    as (w1 & w2 & Hadd & Hdel & Hrows & Hseq).
  - unfold title_max. simpl. lia.
  - reflexivity.
  - vm_compute. discriminate.
  - exists w1, w2. split; [exact Hadd|]. split; [exact Hdel|].
    split; [exact Hrows | exact Hseq].
Defined.

(** X5.  The last update wins.  Two updates of the same id, the second
    with a title that fits and holds no U+0000, leave the store as the
    second alone does, whatever the first was and whether or not it was
    rejected; the second settles the same way in both cases.  In
    particular an update repeated changes nothing more. *)
Theorem X5_last_update_wins (w : World) (t1 t2 : Task.t) (later : Z) :
  Task.id t1 = Task.id t2 ->
  has_nul (Task.title t2) = false ->
  (String.length (Task.title t2) <= title_max)%nat ->
  let w1 := at_time later (snd (updateTaskInDatabase t1 w)) in
  store (snd (updateTaskInDatabase t2 w1)) = store (snd (updateTaskInDatabase t2 w)) /\
  fst (updateTaskInDatabase t2 w1) = fst (updateTaskInDatabase t2 w).
Proof.
  intros Hid Hnul Hfit w1. split.
  - rewrite !update_store. unfold w1. cbn [at_time store].
    rewrite update_store. cbn [rows_of rows seq_of last_value].
    now rewrite updated_rows_twice.
  - now rewrite !update_outcome.
Qed.

Lemma X5_last_update_wins_witness :
  rows_of (store (snd (updateTaskInDatabase (Task.mk "1" "B" COMPLETE)
                         (at_time 40 (snd (updateTaskInDatabase
                                             (Task.mk "1" "A" IN_PROGRESS) two_tasks))))))
  = [mkRow 1 10 (Some "COMPLETE") (Some "B"); mkRow 2 20 (Some "IN_PROGRESS") (Some "b")].
Proof.
  destruct (X5_last_update_wins two_tasks (Task.mk "1" "A" IN_PROGRESS)
              (Task.mk "1" "B" COMPLETE) 40) as [Hstore _].
  - reflexivity.
  - reflexivity.
  - unfold title_max. simpl. lia.
  - cbv zeta in Hstore. rewrite Hstore. vm_compute. reflexivity.
Defined.

(** X6.  Delete commutes.  A delete and an update, of the same id or of
    different ids, leave the same store in either order, and each settles
    as it would alone; so do two deletes. *)
Theorem X6_delete_commutes (w : World) (taskId : string) (task : Task.t) (later : Z) :
  (store (snd (updateTaskInDatabase task
                 (at_time later (snd (deleteTaskFromDatabase taskId w)))))
   = store (snd (deleteTaskFromDatabase taskId
                   (at_time later (snd (updateTaskInDatabase task w)))))) /\
  fst (updateTaskInDatabase task (at_time later (snd (deleteTaskFromDatabase taskId w))))
  = fst (updateTaskInDatabase task w) /\
  fst (deleteTaskFromDatabase taskId (at_time later (snd (updateTaskInDatabase task w))))
  = fst (deleteTaskFromDatabase taskId w) /\
  (forall other : string,
     store (snd (deleteTaskFromDatabase other
                   (at_time later (snd (deleteTaskFromDatabase taskId w)))))
     = store (snd (deleteTaskFromDatabase taskId
                     (at_time later (snd (deleteTaskFromDatabase other w)))))).
Proof.
  split; [|split; [|split]].
  - rewrite update_store, delete_store. cbn [at_time store].
    rewrite update_store, delete_store. cbn [rows_of rows seq_of last_value].
    now rewrite deleted_updated_rows.
  - now rewrite !update_outcome.
  - now rewrite !delete_outcome.
  - intros other. rewrite !delete_store. cbn [at_time store].
    rewrite !delete_store. cbn [rows_of rows seq_of last_value].
    now rewrite deleted_rows_twice.
Qed.

(** **** Rewriting rows in place and the order of a listing *)

Lemma sorted_map_same_time (f : Row -> Row) (s : list Row) :
  (forall r, created_at (f r) = created_at r) ->
  (StronglySorted newer_or_same s <-> StronglySorted newer_or_same (map f s)).
Proof.
  intros Hf. induction s as [|a s IH]; simpl.
  - split; constructor.
  - split; intros H; apply StronglySorted_inv in H; destruct H as [Hs Ha];
      (constructor; [now apply IH|]).
    + rewrite Forall_forall in *. intros y Hy.
      apply in_map_iff in Hy. destruct Hy as (r & <- & Hr).
      specialize (Ha r Hr). unfold newer_or_same in *. now rewrite !Hf.
    + rewrite Forall_forall in *. intros r Hr.
      specialize (Ha (f r) (in_map f s r Hr)).
      unfold newer_or_same in *. now rewrite !Hf in Ha.
Qed.

Lemma admissible_listing_map (f : Row -> Row) (l rs' : list Row) :
  (forall r, created_at (f r) = created_at r) ->
  (admissible_listing (map f l) rs' <->
   exists rs, admissible_listing l rs /\ rs' = map f rs).
Proof.
  intros Hf. split.
  - intros (s' & Hperm & Hsorted & ->).
    apply Permutation_map_inv in Hperm. destruct Hperm as (s & -> & Hperm).
    exists (firstn list_limit s). split.
    + exists s. split; [now apply Permutation_sym|].
      split; [now apply (sorted_map_same_time f) | reflexivity].
    + apply firstn_map.
  - intros (rs & (s & Hperm & Hsorted & ->) & ->).
    exists (map f s). split; [now apply Permutation_map|].
    split; [now apply sorted_map_same_time|]. symmetry. apply firstn_map.
Qed.

(** The rewriting an update does, as a function on rows. *)
Lemma updated_rows_map (task : Task.t) :
  exists f : Row -> Row,
    (forall l, updated_rows task l = map f l) /\
    (forall r, id (f r) = id r /\ created_at (f r) = created_at r /\
               (int4in (Task.id task) <> Ok (id r) -> f r = r)).
Proof.
  unfold updated_rows.
  destruct (update_params task) as [[x ti]|e] eqn:E.
  - apply update_params_id in E.
    exists (rewrite_row x (Task.status task) ti). split; [reflexivity|].
    intros r. unfold rewrite_row.
    destruct (Z.eqb_spec (id r) x); cbn [set_status_title id created_at];
      repeat split; congruence.
  - exists (fun r => r). split; [intros l; now rewrite map_id|].
    intros r. repeat split.
Qed.

(** X7.  An update does not move a task in the list.  Whatever the update,
    the table after it is the table before it with each row rewritten in
    place by a function that keeps [id] and [created_at] and fixes every
    row of another id.  The listings of the table after the update are
    exactly the listings of the table before it with their rows rewritten
    by that function, whatever order the store gives to rows created at
    the same time. *)
Theorem X7_update_keeps_the_order (w : World) (task : Task.t) (later : Z) :
  let w1 := at_time later (snd (updateTaskInDatabase task w)) in
  exists f : Row -> Row,
    (forall r, id (f r) = id r /\ created_at (f r) = created_at r /\
               (int4in (Task.id task) <> Ok (id r) -> f r = r)) /\
    rows_of (store w1) = map f (rows_of (store w)) /\
    (forall rs',
       admissible_listing (rows_of (store w1)) rs' <->
       exists rs, admissible_listing (rows_of (store w)) rs /\ rs' = map f rs).
Proof.
  intros w1. destruct (updated_rows_map task) as (f & Hmap & Hf).
  assert (Htime : forall r, created_at (f r) = created_at r) by (intros r; apply Hf).
  assert (Hrows : rows_of (store w1) = map f (rows_of (store w))).
  { unfold w1. cbn [at_time store]. rewrite update_store. cbn [rows_of rows].
    apply Hmap. }
  exists f. split; [exact Hf|]. split; [exact Hrows|].
  intros rs'. rewrite Hrows. now apply admissible_listing_map.
Qed.

(** **** The bounds of the stored texts *)

Lemma status_text_bounded (st : Status) :
  (String.length (status_text st) <= status_max)%nat.
Proof. destruct st; unfold status_max; simpl; lia. Qed.

Lemma step_rows_bounded (now : Z) (c : Call) (db : DB) :
  Forall row_bounded (rows_of db) -> Forall row_bounded (rows_of (step now c db)).
Proof.
  intros Hb. unfold step. destruct c; cbn [stmt_of exec].
  - fold (ensure (ensure db)). now rewrite ensure_idem, ensure_rows.
  - rewrite insert_cases. destruct (title_in title0) as [ti|e] eqn:E;
      [|cbn [snd]; now rewrite ensure_rows].
    destruct (int4_max <=? _); [cbn [snd]; now rewrite ensure_rows|].
    destruct (has_id _ _); cbn [snd rows_of rows]; [exact Hb|].
    apply Forall_app. split; [exact Hb|]. constructor; [|constructor].
    apply title_in_bound in E. destruct E as [Elen Enul].
    split; [|split]; cbn [status title].
    + intros st [= <-]. apply (status_text_bounded IN_PROGRESS).
    + now intros ti' [= <-].
    + now intros ti' [= <-].
  - rewrite ensure_some. cbn [select_tasks snd]. now rewrite <- ensure_some, ensure_rows.
  - rewrite update_cases. destruct (update_params task) as [[x ti]|e] eqn:E;
      [|cbn [snd]; now rewrite ensure_rows].
    destruct (existsb _ _); cbn [snd rows_of rows]; [|now rewrite ensure_rows].
    apply update_params_title, title_in_bound in E. destruct E as [Elen Enul].
    rewrite Forall_forall in *. intros r' Hr'.
    apply in_map_iff in Hr'. destruct Hr' as (r & <- & Hr).
    unfold rewrite_row. destruct (id r =? x); [|now apply Hb].
    split; [|split]; cbn [set_status_title status title].
    + intros st [= <-]. apply status_text_bounded.
    + now intros ti' [= <-].
    + now intros ti' [= <-].
  - rewrite delete_cases. destruct (int4_text taskId); cbn [snd rows_of rows];
      [|now rewrite ensure_rows].
    rewrite Forall_forall in *. intros r Hr. apply filter_In in Hr. apply Hb, Hr.
Qed.

Lemma step_store_ok (now : Z) (c : Call) (db : DB) :
  store_ok db -> store_ok (step now c db).
Proof.
  intros (Hi & Hv & Hb & Hmax). split; [|split; [|split]].
  - now apply step_ids_ok.
  - now apply step_rows_valid.
  - now apply step_rows_bounded.
  - now apply step_seq_bounded.
Qed.

Lemma store_ok_fresh : store_ok None.
Proof.
  split; [apply ids_ok_fresh|]. split; [constructor|]. split; [constructor|].
  cbn [seq_of]. unfold int4_max. lia.
Qed.

Lemma steps_store_ok (h : list (Z * Call)) (db : DB) :
  store_ok db -> store_ok (steps h db).
Proof.
  revert db. induction h as [|[now c] h IH]; intros db Hok; simpl; [exact Hok|].
  apply IH, step_store_ok, Hok.
Qed.

(** X8.  What is stored can be sent back.  After every history from a
    fresh deployment, every stored title has at most 1024 characters and
    every stored status at most 255; so an update that sends back the title
    of a stored row, with either status, under an id that reads as an
    integer, is never rejected. *)
Theorem X8_stored_texts_fit (h : list (Z * Call)) :
  let w := run h world0 in
  forall r, In r (rows_of (store w)) ->
    (forall st, status r = Some st -> (String.length st <= 255)%nat) /\
    (forall ti, title r = Some ti ->
       (String.length ti <= 1024)%nat /\
       forall (taskId : string) (x : Z) (st : Status) (now : Z),
         int4in taskId = Ok x ->
         fst (updateTaskInDatabase (Task.mk taskId ti st) (at_time now w)) = Ok tt).
Proof.
  cbv zeta. intros r Hr. rewrite run_store in Hr.
  pose proof (steps_store_ok h None store_ok_fresh) as (_ & _ & Hb & _).
  rewrite Forall_forall in Hb. destruct (Hb r Hr) as (Hst & Hti & Hnul).
  split; [exact Hst|]. intros ti E. split; [now apply Hti|].
  intros taskId x st now Hx. rewrite update_outcome.
  now rewrite (update_params_ok (Task.mk taskId ti st) x Hx (Hnul ti E) (Hti ti E)).
Qed.

Lemma X8_stored_texts_fit_witness :
  fst (updateTaskInDatabase (Task.mk "2" "b" COMPLETE) (at_time 40 two_tasks)) = Ok tt.
Proof.
  destruct (X8_stored_texts_fit [(10, AddTask "a"); (20, AddTask "b")]
              (mkRow 2 20 (Some "IN_PROGRESS") (Some "b"))) as [_ Hti].
  - vm_compute. right. left. reflexivity.
  - destruct (Hti "b" eq_refl) as [_ Hupd].
    apply (Hupd "2" 2 COMPLETE 40). vm_compute. reflexivity.
Defined.

(** **** Times of creation along a history whose clock advances *)

Lemma sorted_filter_times (f : Row -> bool) (l : list Row) :
  StronglySorted Z.lt (map created_at l) ->
  StronglySorted Z.lt (map created_at (filter f l)).
Proof.
  induction l as [|a l IH]; simpl; intros Hs; [constructor|].
  apply StronglySorted_inv in Hs. destruct Hs as [Hs Ha].
  destruct (f a); simpl; [|now apply IH].
  constructor; [now apply IH|].
  rewrite Forall_forall in *. intros y Hy. apply Ha.
  apply in_map_iff in Hy. destruct Hy as (r & <- & Hr).
  apply filter_In in Hr. apply in_map, Hr.
Qed.

Lemma rewrite_rows_times (x : Z) (st : Status) (ti : string) (l : list Row) :
  map created_at (map (rewrite_row x st ti) l) = map created_at l.
Proof.
  rewrite map_map. apply map_ext. intros r. unfold rewrite_row.
  now destruct (id r =? x).
Qed.

Lemma step_times (now : Z) (c : Call) (db : DB) (r' : Row) :
  In r' (rows_of (step now c db)) ->
  created_at r' = now \/
  exists r, In r (rows_of db) /\ created_at r = created_at r'.
Proof.
  destruct (step_cases now c db)
    as [E|[E|[(ti & _ & E)|[(x & st & ti & E)|(x & E)]]]];
    rewrite E; [rewrite ensure_rows|..]; cbn [rows_of rows]; intros Hr'.
  - right. now exists r'.
  - right. now exists r'.
  - apply in_app_or in Hr'. destruct Hr' as [Hr'|[<-|[]]].
    + right. now exists r'.
    + now left.
  - apply in_map_iff in Hr'. destruct Hr' as (r & <- & Hr).
    right. exists r. split; [exact Hr|]. unfold rewrite_row.
    now destruct (id r =? x).
  - apply filter_In in Hr'. right. now exists r'.
Qed.

Lemma step_sorted_times (now : Z) (c : Call) (db : DB) :
  StronglySorted Z.lt (map created_at (rows_of db)) ->
  Forall (fun r => created_at r < now) (rows_of db) ->
  StronglySorted Z.lt (map created_at (rows_of (step now c db))).
Proof.
  intros Hs Hlt.
  destruct (step_cases now c db)
    as [E|[E|[(ti & _ & E)|[(x & st & ti & E)|(x & E)]]]];
    rewrite E; [now rewrite ensure_rows|..]; cbn [rows_of rows].
  - exact Hs.
  - rewrite map_app. cbn [map created_at]. apply sorted_snoc; [exact Hs|].
    rewrite Forall_forall in *. intros t Ht.
    apply in_map_iff in Ht. destruct Ht as (r & <- & Hr). now apply Hlt.
  - now rewrite rewrite_rows_times.
  - now apply sorted_filter_times.
Qed.

Lemma steps_sorted_times (h : list (Z * Call)) (db : DB) :
  StronglySorted Z.lt (map created_at (rows_of db)) ->
  StronglySorted Z.lt (map fst h) ->
  (forall r x, In r (rows_of db) -> In x h -> created_at r < fst x) ->
  StronglySorted Z.lt (map created_at (rows_of (steps h db))).
Proof.
  revert db. induction h as [|[now c] h IH]; intros db Hs Hh Hlt; simpl.
  - exact Hs.
  - simpl in Hh. apply StronglySorted_inv in Hh. destruct Hh as [Hh Hnow].
    apply IH; [|exact Hh|].
    + apply step_sorted_times; [exact Hs|].
      rewrite Forall_forall. intros r Hr.
      apply (Hlt r (now, c) Hr). now left.
    + intros r' x Hr' Hx.
      assert (Hx' : now < fst x).
      { rewrite Forall_forall in Hnow. apply Hnow. now apply in_map. }
      destruct (step_times now c db r' Hr') as [->|(r & Hr & <-)]; [exact Hx'|].
      apply Hlt; [exact Hr | now right].
Qed.

Lemma ascending_listing (l rs : list Row) :
  StronglySorted Z.lt (map created_at l) ->
  admissible_listing l rs ->
  rs = firstn list_limit (rev l).
Proof.
  intros Hasc (s & Hperm & Hsorted & ->).
  destruct (latest_are_first s [] l Hsorted Hperm Hasc) as (s' & -> & Hs').
  { intros a b []. }
  apply Permutation_sym, Permutation_nil in Hs'. subst s'.
  now rewrite app_nil_r.
Qed.

(** X9.  With a clock that advances, the list is last in, first out.  After
    a history from a fresh deployment whose calls were made at strictly
    increasing times, the rows of the table are in increasing order of
    [created_at] as they are in increasing order of [id], and every listing
    is the last 100 rows inserted, the last one first; they are what
    [getTasksFromDatabase] resolves with, parsed. *)
Theorem X9_newest_first_is_last_in_first (h : list (Z * Call)) :
  StronglySorted Z.lt (map fst h) ->
  let w := run h world0 in
  StronglySorted Z.lt (map created_at (rows_of (store w))) /\
  StronglySorted Z.lt (map id (rows_of (store w))) /\
  (forall rs,
     admissible_listing (rows_of (store w)) rs ->
     rs = firstn 100 (rev (rows_of (store w)))) /\
  forall later : Z,
    fst (getTasksFromDatabase (at_time later w))
    = Ok (map parse_row (firstn 100 (rev (rows_of (store w))))).
Proof.
  intros Hh w.
  assert (Hasc : StronglySorted Z.lt (map created_at (rows_of (store w)))).
  { unfold w. rewrite run_store. cbn [world0 store].
    apply steps_sorted_times; [constructor | exact Hh | intros r x []]. }
  split; [exact Hasc|]. split; [apply (run_ids_ok h)|]. split.
  - intros rs Hrs. now apply ascending_listing.
  - intros later. rewrite getTasksFromDatabase_eq. cbn [fst at_time store].
    unfold listing. do 2 f_equal.
    apply ascending_listing; [exact Hasc | apply selected_admissible].
Qed.

Lemma X9_newest_first_witness :
  fst (getTasksFromDatabase (at_time 50 (run sample_history world0)))
  = Ok [mkRow 1 0 (Some "COMPLETE") (Some "A")].
Proof.
  assert (Hclock : StronglySorted Z.lt (map fst sample_history)).
  { simpl. repeat constructor. }
  destruct (X9_newest_first_is_last_in_first sample_history Hclock)
    as (_ & _ & _ & Hlist).
  rewrite (Hlist 50). vm_compute. reflexivity.
Defined.

(** **** The handlers of the page, by their effect *)

Lemma listing_rows (a b : DB) : rows_of a = rows_of b -> listing a = listing b.
Proof. unfold listing, selected. now intros ->. Qed.

(** A mutation followed by [getTasks], for the statement of a call. *)
Lemma refetch_effect (c : Call) (w : World) :
  let r := (mutation (stmt_of c) ;; getTasks) w in
  fst r = outcome (clock w) c (store w) /\
  store (snd r) = step (clock w) c (store w) /\
  clock (snd r) = clock w /\
  tasks (snd r) = match outcome (clock w) c (store w) with
                  | Ok _ => listing (step (clock w) c (store w))
                  | Throw _ => tasks w
                  end /\
  newTaskTitle (snd r) = newTaskTitle w.
Proof.
  cbv zeta. rewrite mutate_then_getTasks. unfold outcome, step.
  pose proof (exec_ensure_present (clock w) (stmt_of c) (store w)) as Hpresent.
  destruct (exec (clock w) (stmt_of c) (ensure (store w))) as [[l|e] db];
    cbn [fst snd void store clock tasks newTaskTitle settled] in *.
  - rewrite Hpresent. repeat split.
  - repeat split.
Qed.

Lemma tr_checkbox (task : Task.t) :
  onClick_checkbox (tr task) =
  (mutation (stmt_of (UpdateTaskCall
                        (Task.mk (Task.id task) (Task.title task)
                                 (other_status (Task.status task))))) ;; getTasks).
Proof. destruct task as [i t []]; reflexivity. Qed.

Lemma tr_button (task : Task.t) :
  onClick_button (tr task) =
  (mutation (stmt_of (DeleteTaskCall (Task.id task))) ;; getTasks).
Proof. reflexivity. Qed.

Lemma handleSubmit_unfold (w : World) :
  handleSubmit w =
  match (mutation (InsertTask (Some (newTaskTitle w))) ;; getTasks)
          (record PreventDefault w) with
  | (Ok _, w1) => setNewTaskTitle "" w1
  | (Throw e, w1) => (Throw e, w1)
  end.
Proof.
  unfold handleSubmit. unfold bind at 1. unfold preventDefault.
  rewrite bind_assoc. unfold bind at 1. reflexivity.
Qed.

Lemma handleSubmit_effect (w : World) :
  let c := AddTask (newTaskTitle w) in
  let r := handleSubmit w in
  fst r = outcome (clock w) c (store w) /\
  store (snd r) = step (clock w) c (store w) /\
  clock (snd r) = clock w /\
  tasks (snd r) = match outcome (clock w) c (store w) with
                  | Ok _ => listing (step (clock w) c (store w))
                  | Throw _ => tasks w
                  end /\
  newTaskTitle (snd r) = match outcome (clock w) c (store w) with
                         | Ok _ => ""
                         | Throw _ => newTaskTitle w
                         end.
Proof.
  cbv zeta.
  pose proof (refetch_effect (AddTask (newTaskTitle w)) (record PreventDefault w))
    as (Hout & Hstore & Hclock & Htasks & Htitle).
  cbn [record clock store tasks newTaskTitle stmt_of] in *.
  rewrite handleSubmit_unfold.
  destruct ((mutation (InsertTask (Some (newTaskTitle w))) ;; getTasks)
              (record PreventDefault w)) as [[[]|e] w1]; cbn [fst snd] in *;
    rewrite <- Hout in *.
  - unfold setNewTaskTitle. cbn [fst snd record store clock tasks newTaskTitle].
    repeat split; assumption.
  - repeat split; assumption.
Qed.

Lemma getTasks_effect (w : World) :
  let r := getTasks w in
  fst r = Ok tt /\
  store (snd r) = step (clock w) ListTasks (store w) /\
  clock (snd r) = clock w /\
  tasks (snd r) = listing (store w) /\
  newTaskTitle (snd r) = newTaskTitle w.
Proof.
  cbv zeta. unfold getTasks, bind. rewrite getTasksFromDatabase_eq.
  unfold setTasks, record, step.
  cbn [fst snd store clock tasks newTaskTitle settled stmt_of exec].
  rewrite ensure_some. cbn [select_tasks snd]. repeat split.
Qed.

(** Every event leaves the store as the call it awaits leaves it, and
    leaves the list of the page a listing of the store if it was one. *)
Lemma handle_effect (e : PageEvent) (w : World) :
  let w' := snd (handle e w) in
  store w' = match call_of e w with
             | Some c => step (clock w) c (store w)
             | None => store w
             end /\
  (tasks w = listing (store w) -> tasks w' = listing (store w')).
Proof.
  cbv zeta.
  assert (Hrefetch : forall c r,
            fst r = outcome (clock w) c (store w) ->
            store (snd r) = step (clock w) c (store w) ->
            tasks (snd r) = match outcome (clock w) c (store w) with
                            | Ok _ => listing (step (clock w) c (store w))
                            | Throw _ => tasks w
                            end ->
            tasks w = listing (store w) ->
            tasks (snd r) = listing (store (snd r))).
  { intros c r Hout Hstore Htasks Hinv. rewrite Htasks, Hstore.
    destruct (outcome (clock w) c (store w)) eqn:E; [reflexivity|].
    rewrite Hinv. apply listing_rows. symmetry. eapply step_rejected, E. }
  destruct e; cbn [handle call_of].
  - destruct (getTasks_effect w) as (_ & Hstore & _ & Htasks & _).
    unfold useEffect. split; [exact Hstore|]. intros _.
    rewrite Htasks, Hstore. unfold step. cbn [stmt_of exec].
    rewrite ensure_some. cbn [select_tasks snd]. rewrite <- ensure_some.
    symmetry. apply listing_ensure.
  - unfold onChange, setNewTaskTitle. cbn [snd record store tasks]. auto.
  - destruct (handleSubmit_effect w) as (Hout & Hstore & _ & Htasks & _).
    split; [exact Hstore|]. now apply (Hrefetch (AddTask (newTaskTitle w))).
  - rewrite tr_checkbox.
    destruct (refetch_effect
                (UpdateTaskCall (Task.mk (Task.id task) (Task.title task)
                                         (other_status (Task.status task)))) w)
      as (Hout & Hstore & _ & Htasks & _).
    split; [exact Hstore|]. eapply Hrefetch; eassumption.
  - rewrite tr_button.
    destruct (refetch_effect (DeleteTaskCall (Task.id task)) w)
      as (Hout & Hstore & _ & Htasks & _).
    split; [exact Hstore|]. eapply Hrefetch; eassumption.
Qed.

Lemma session_ok (h : list (Z * PageEvent)) (w : World) :
  store_ok (store w) ->
  tasks w = listing (store w) ->
  store_ok (store (session h w)) /\
  tasks (session h w) = listing (store (session h w)).
Proof.
  revert w. induction h as [|[now e] h IH]; intros w Hok Hinv; simpl.
  - now split.
  - destruct (handle_effect e (at_time now w)) as [Hstore Htasks].
    apply IH.
    + rewrite Hstore. cbn [at_time store clock].
      destruct (call_of e (at_time now w)); [now apply step_store_ok | exact Hok].
    + apply Htasks. exact Hinv.
Qed.

Lemma session_world0_ok (h : list (Z * PageEvent)) :
  store_ok (store (session h world0)) /\
  tasks (session h world0) = listing (store (session h world0)).
Proof. apply session_ok; [apply store_ok_fresh | reflexivity]. Qed.

(** **** What the page renders *)

Lemma status_of_text_status_text (st : Status) :
  status_of_text (status_text st) = Some st.
Proof. now destruct st. Qed.

Lemma shown_valid (r : Row) :
  row_valid r ->
  exists st ti,
    status r = Some (status_text st) /\ title r = Some ti /\
    shown r = Some (Task.mk (number_text (id r)) ti st).
Proof.
  intros [Hst Hti]. destruct (title r) as [ti|] eqn:E; [|congruence].
  assert (Hs : exists st, status r = Some (status_text st)).
  { destruct Hst as [Hst|Hst]; [now exists IN_PROGRESS | now exists COMPLETE]. }
  destruct Hs as (st & Hs). exists st, ti. split; [exact Hs|]. split; [reflexivity|].
  unfold shown. now rewrite Hs, E, status_of_text_status_text.
Qed.

Lemma number_text_value (x : Z) :
  0 < x -> fst (read_digits 0 (number_text x)) = x.
Proof.
  intros Hx. destruct x as [|p|p]; try lia.
  unfold number_text. cbn [Z.to_int NilZero.string_of_int].
  pose proof (Unsigned.of_to p) as Hval.
  pose proof (Unsigned.to_uint_nonnil p) as Hnn.
  apply (f_equal Z.of_N) in Hval. rewrite of_uint_value in Hval. cbn [Z.of_N] in Hval.
  unfold NilZero.string_of_uint.
  destruct (Pos.to_uint p); [congruence|..];
    cbv beta iota; rewrite read_digits_uint; exact Hval.
Qed.

Lemma number_text_inj (x y : Z) :
  0 < x -> 0 < y -> number_text x = number_text y -> x = y.
Proof.
  intros Hx Hy E.
  rewrite <- (number_text_value x Hx), <- (number_text_value y Hy). now rewrite E.
Qed.

Lemma NoDup_firstn {A} (n : nat) (l : list A) : NoDup l -> NoDup (firstn n l).
Proof.
  intros H. rewrite <- (firstn_skipn n l) in H.
  eapply NoDup_app_remove_r, H.
Qed.

Lemma listing_ids_distinct (db : DB) :
  NoDup (map id (rows_of db)) -> NoDup (map id (listing db)).
Proof.
  intros H. unfold listing, selected. rewrite parse_rows_ids, <- firstn_map.
  apply NoDup_firstn.
  eapply Permutation_NoDup; [|exact H].
  apply Permutation_map, Permutation_sym, order_by_perm.
Qed.

(** A listed row is a stored row, parsed: it has its id, status and
    title. *)
Lemma listed_row_stored (db : DB) (r : Row) :
  store_ok db ->
  In r (listing db) ->
  exists r0,
    In r0 (rows_of db) /\ r = parse_row r0 /\
    row_valid r /\ 0 < id r <= int4_max.
Proof.
  intros ((_ & _ & Hpos) & Hvalid & _ & Hmax) Hr.
  destruct (listing_in db r Hr) as (r0 & Hr0 & ->).
  rewrite Forall_forall in Hpos, Hvalid.
  exists r0. split; [exact Hr0|]. split; [reflexivity|].
  split; [exact (Hvalid r0 Hr0)|].
  cbn [parse_row id]. specialize (Hpos r0 Hr0). lia.
Qed.

Lemma NoDup_map_in {A B} (f : A -> B) (l : list A) :
  NoDup l ->
  (forall a b, In a l -> In b l -> f a = f b -> a = b) ->
  NoDup (map f l).
Proof.
  induction 1 as [|x l Hnotin Hnd IH]; intros Hinj; simpl; constructor.
  - intros Hin. apply in_map_iff in Hin. destruct Hin as (y & E & Hy).
    apply Hnotin. rewrite <- (Hinj y x); auto; [now right | now left].
  - apply IH. intros a b Ha Hb. apply Hinj; now right.
Qed.

Lemma as_tasks_valid (l : list Row) :
  Forall row_valid l ->
  exists ts,
    as_tasks l = Some ts /\
    Forall2 row_rendered l (map tr ts) /\
    map key (map tr ts) = map (fun r => number_text (id r)) l.
Proof.
  induction 1 as [|r l Hr Hl IH].
  - exists []. split; [reflexivity|]. split; [constructor | reflexivity].
  - destruct IH as (ts & E & Hall & Hkeys).
    destruct (shown_valid r Hr) as (st & ti & Hst & Hti & Hshown).
    exists (Task.mk (number_text (id r)) ti st :: ts).
    cbn [as_tasks]. rewrite Hshown, E. split; [reflexivity|]. split.
    + cbn [map]. constructor; [|exact Hall].
      unfold row_rendered, tr.
      cbn [key text checked line_through Task.id Task.title Task.status].
      rewrite Hst.
      destruct st; cbn [status_text]; repeat split; intros;
        try reflexivity; try assumption; discriminate.
    + cbn [map]. now rewrite Hkeys.
Qed.

(** X10.  The page shows the store.  After every session on the page from
    a fresh deployment, whatever was typed, submitted and clicked and
    whatever the store rejected, the list the page holds is a listing of
    the table as it is now: its rows are rows of the table, parsed, newest
    first, all of them or the 100 first. *)
Theorem X10_page_shows_a_listing (h : list (Z * PageEvent)) :
  let w := session h world0 in
  admissible_rows (rows_of (store w)) (tasks w) /\
  (forall r, In r (tasks w) ->
     exists r0, In r0 (rows_of (store w)) /\ r = parse_row r0) /\
  List.length (tasks w) = Nat.min 100 (List.length (rows_of (store w))) /\
  StronglySorted newer_or_same (tasks w).
Proof.
  cbv zeta. destruct (session_world0_ok h) as [_ Htasks].
  assert (Hadm : admissible_rows (rows_of (store (session h world0)))
                                 (tasks (session h world0))).
  { rewrite Htasks. apply listing_admissible. }
  split; [exact Hadm|]. split.
  - intros r. now apply admissible_rows_in.
  - destruct Hadm as (rs & Hrs & ->).
    destruct (admissible_listing_facts _ _ Hrs) as (Hlen & Hsorted & _).
    rewrite length_map. split; [exact Hlen | now apply parse_rows_sorted].
Qed.

(** X11.  One table row per task.  After every session on the page from a
    fresh deployment, every element of the list the page holds is a task,
    and the table body has one row for each, in the order of the list: its
    key is the id in decimal, its text the title, its box checked and its
    text struck through exactly when the status is COMPLETE.  No two rows
    of the table body have the same key. *)
Theorem X11_one_table_row_per_task (h : list (Z * PageEvent)) :
  let w := session h world0 in
  exists trs,
    tbody w = Some trs /\
    Forall2 row_rendered (tasks w) trs /\
    NoDup (map key trs).
Proof.
  intros w. destruct (session_world0_ok h) as [Hok Htasks].
  change (session h world0) with w in Hok, Htasks.
  assert (Hin : forall r, In r (tasks w) -> row_valid r /\ 0 < id r).
  { intros r Hr. rewrite Htasks in Hr.
    destruct (listed_row_stored _ r Hok Hr) as (_ & _ & _ & Hv & Hpos & _).
    now split. }
  assert (Hv : Forall row_valid (tasks w)).
  { rewrite Forall_forall. intros r Hr. now apply Hin. }
  destruct (as_tasks_valid _ Hv) as (ts & E & Hall & Hkeys).
  exists (map tr ts). unfold tbody. rewrite E. split; [reflexivity|].
  split; [exact Hall|]. rewrite Hkeys.
  destruct Hok as ((Hsorted & _) & _).
  assert (Hnd : NoDup (map id (tasks w))).
  { rewrite Htasks. apply listing_ids_distinct, sorted_lt_NoDup, Hsorted. }
  apply NoDup_map_in.
  - eapply NoDup_map_inv, Hnd.
  - intros a b Ha Hb Eab. apply (same_key_same_row id (tasks w)); auto.
    apply number_text_inj; [apply Hin, Ha | apply Hin, Hb | exact Eab].
Qed.

(** **** A click on the box and on the button of a listed row *)

Lemma flipped_rows (i : Z) (st : Status) (ti : string) (l : list Row) :
  map (rewrite_row i st ti) l =
  map (fun x => if id x =? i
                then mkRow (id x) (created_at x) (Some (status_text st)) (Some ti)
                else x) l.
Proof. reflexivity. Qed.

(** What is stored can be sent back. *)
Lemma stored_row (w : World) (r0 : Row) :
  store_ok (store w) ->
  In r0 (rows_of (store w)) ->
  NoDup (map id (rows_of (store w))) /\
  int4in (number_text (id r0)) = Ok (id r0) /\
  (forall ti, title r0 = Some ti ->
     has_nul ti = false /\ (String.length ti <= title_max)%nat).
Proof.
  intros ((Hsorted & _ & Hpos) & _ & Hbounded & Hmax) Hr.
  rewrite Forall_forall in Hpos, Hbounded.
  split; [now apply sorted_lt_NoDup|]. split.
  - apply int4in_number_text. specialize (Hpos r0 Hr). lia.
  - intros ti Hti. destruct (Hbounded r0 Hr) as (_ & Hlen & Hnul). auto.
Qed.

Lemma checkbox_effect (w : World) (r0 : Row) (st : Status) (ti : string) :
  store_ok (store w) ->
  In r0 (rows_of (store w)) ->
  title r0 = Some ti ->
  let res := onClick_checkbox (tr (Task.mk (number_text (id r0)) ti st)) w in
  fst res = Ok tt /\
  rows_of (store (snd res)) =
    map (fun x => if id x =? id r0
                  then mkRow (id x) (created_at x)
                             (Some (status_text (other_status st))) (Some ti)
                  else x) (rows_of (store w)) /\
  tasks (snd res) = listing (store (snd res)) /\
  newTaskTitle (snd res) = newTaskTitle w /\
  store_ok (store (snd res)).
Proof.
  intros Hok Hr Hti.
  destruct (stored_row w r0 Hok Hr) as (Hnd & Hread & Hfit).
  destruct (Hfit ti Hti) as [Hnul Hlen].
  pose proof (tr_checkbox (Task.mk (number_text (id r0)) ti st)) as Htr.
  cbn [Task.id Task.title Task.status] in Htr.
  cbv zeta. rewrite Htr.
  destruct (refetch_effect
              (UpdateTaskCall (Task.mk (number_text (id r0)) ti (other_status st))) w)
    as (Hout & Hstore & _ & Htasks & Htitle).
  pose proof (call_settles
                (UpdateTaskCall (Task.mk (number_text (id r0)) ti (other_status st))) w)
    as Hsettle.
  pose proof (call_store
                (UpdateTaskCall (Task.mk (number_text (id r0)) ti (other_status st))) w)
    as Hcs.
  cbn [call] in Hsettle, Hcs.
  rewrite update_outcome in Hsettle. rewrite update_store in Hcs.
  unfold updated_rows in Hcs.
  rewrite (update_params_ok
             (Task.mk (number_text (id r0)) ti (other_status st)) (id r0)
             Hread Hnul Hlen) in Hsettle, Hcs.
  cbn [void Task.status] in Hsettle, Hcs.
  rewrite <- Hsettle in Hout, Htasks.
  split; [exact Hout|]. split; [|split; [|split]].
  - rewrite Hstore, <- Hcs. cbn [rows_of rows]. apply flipped_rows.
  - rewrite Htasks, Hstore. reflexivity.
  - exact Htitle.
  - rewrite Hstore. now apply step_store_ok.
Qed.

Lemma button_effect (w : World) (r0 : Row) (ti : string) (st : Status) :
  store_ok (store w) ->
  In r0 (rows_of (store w)) ->
  let res := onClick_button (tr (Task.mk (number_text (id r0)) ti st)) w in
  fst res = Ok tt /\
  store (snd res) =
    Some (mkTable (filter (fun x => negb (id x =? id r0)) (rows_of (store w)))
                  (seq_of (store w))) /\
  tasks (snd res) = listing (store (snd res)).
Proof.
  intros Hok Hr.
  destruct (stored_row w r0 Hok Hr) as (Hnd & Hread & _).
  apply int4_text_ok in Hread.
  cbv zeta. rewrite tr_button. cbn [Task.id].
  destruct (refetch_effect (DeleteTaskCall (number_text (id r0))) w)
    as (Hout & Hstore & _ & Htasks & _).
  pose proof (call_settles (DeleteTaskCall (number_text (id r0))) w) as Hsettle.
  pose proof (call_store (DeleteTaskCall (number_text (id r0))) w) as Hcs.
  cbn [call] in Hsettle, Hcs.
  rewrite delete_outcome in Hsettle. rewrite delete_store in Hcs.
  unfold deleted_rows in Hcs. rewrite Hread in Hsettle, Hcs.
  cbn [void] in Hsettle.
  rewrite <- Hsettle in Hout, Htasks.
  split; [exact Hout|]. split.
  - rewrite Hstore, <- Hcs. reflexivity.
  - rewrite Htasks, Hstore. reflexivity.
Qed.

(** X12.  The box of a row flips its status.  After every session on the
    page from a fresh deployment, a click on the box of a row of the list
    is never rejected.  It gives the other status to the row of the table
    with that id and leaves its title, its id and its time of creation,
    and every other row, as they were; the page then holds a listing of
    the new table, and the typed text is kept.  A second click, on the box
    of the row as it is now, gives back the table of before the first. *)
Theorem X12_checkbox_flips_the_status
    (h : list (Z * PageEvent)) (now later : Z) (r : Row) :
  let w := at_time now (session h world0) in
  In r (tasks w) ->
  exists task st ti,
    shown r = Some task /\
    status r = Some (status_text st) /\
    title r = Some ti /\
    let flip := fun (s : Status) (x : Row) =>
                  if id x =? id r
                  then mkRow (id x) (created_at x) (Some (status_text s)) (Some ti)
                  else x in
    let res := onClick_checkbox (tr task) w in
    let w1 := at_time later (snd res) in
    fst res = Ok tt /\
    rows_of (store w1) = map (flip (other_status st)) (rows_of (store w)) /\
    admissible_rows (rows_of (store w1)) (tasks w1) /\
    newTaskTitle w1 = newTaskTitle w /\
    exists task',
      shown (flip (other_status st) r) = Some task' /\
      fst (onClick_checkbox (tr task') w1) = Ok tt /\
      rows_of (store (snd (onClick_checkbox (tr task') w1))) = rows_of (store w).
Proof.
  intros w Hr.
  destruct (session_world0_ok h) as [Hok Htasks].
  assert (Hokw : store_ok (store w)) by exact Hok.
  assert (Hlisted : In r (listing (store w))).
  { cbn [w at_time store tasks] in *. now rewrite <- Htasks. }
  destruct (listed_row_stored _ r Hokw Hlisted) as (r0 & Hr0 & Hparsed & Hvalid & _).
  destruct (shown_valid r Hvalid) as (st & ti & Hst & Hti & Hshown).
  subst r. cbn [parse_row id status title] in Hst, Hti, Hshown.
  exists (Task.mk (number_text (id r0)) ti st), st, ti.
  split; [exact Hshown|]. split; [exact Hst|]. split; [exact Hti|].
  cbv zeta. cbn [parse_row id].
  destruct (checkbox_effect w r0 st ti Hokw Hr0 Hti)
    as (Hout & Hrows & Hlist & Htyped & Hok1).
  set (res := onClick_checkbox (tr (Task.mk (number_text (id r0)) ti st)) w) in *.
  split; [exact Hout|]. split; [exact Hrows|]. split.
  { cbn [at_time store tasks]. rewrite Hlist. apply listing_admissible. }
  split; [exact Htyped|].
  exists (Task.mk (number_text (id r0)) ti (other_status st)).
  split.
  { unfold shown. rewrite Z.eqb_refl. cbn [status title id].
    now rewrite status_of_text_status_text. }
  set (r1 := mkRow (id r0) (created_at r0)
                   (Some (status_text (other_status st))) (Some ti)).
  assert (Hrow1 : In r1 (rows_of (store (at_time later (snd res))))).
  { cbn [at_time store]. rewrite Hrows. apply in_map_iff. exists r0.
    now rewrite Z.eqb_refl. }
  destruct (checkbox_effect (at_time later (snd res)) r1 (other_status st) ti
              Hok1 Hrow1 eq_refl)
    as (Hout2 & Hrows2 & _).
  cbn [r1 id] in Hout2, Hrows2.
  split; [exact Hout2|].
  rewrite Hrows2.
  cbn [at_time store]. rewrite Hrows, map_map.
  rewrite <- (map_id (rows_of (store w))) at 2.
  apply map_ext_in. intros x Hx.
  destruct Hokw as ((Hsorted & _) & _).
  destruct (Z.eqb_spec (id x) (id r0)) as [E|E].
  - cbn [id]. rewrite E, Z.eqb_refl.
    rewrite (same_key_same_row id (rows_of (store w)) x r0
               (sorted_lt_NoDup _ Hsorted) Hx Hr0 E).
    destruct r0 as [i c s0 t]. cbn [id created_at status title] in *.
    rewrite Hst, Hti. now destruct st.
  - destruct (Z.eqb_spec (id x) (id r0)); [contradiction | reflexivity].
Qed.

Lemma X12_checkbox_witness :
  exists task st ti,
    shown (mkRow 1 10 (Some "IN_PROGRESS") (Some "Buy milk")) = Some task /\
    Some "IN_PROGRESS" = Some (status_text st) /\
    Some "Buy milk" = Some ti /\
    fst (onClick_checkbox (tr task) (at_time 40000 (session sample_session world0)))
    = Ok tt.
Proof.
  destruct (X12_checkbox_flips_the_status sample_session 40000 50000
              (mkRow 1 10 (Some "IN_PROGRESS") (Some "Buy milk")))
    as (task & st & ti & Hshown & Hst & Hti & Hout & _).
  - vm_compute. right. left. reflexivity.
  - exists task, st, ti.
    split; [exact Hshown|]. split; [exact Hst|]. split; [exact Hti | exact Hout].
Defined.

(** X13.  The button of a row deletes it.  After every session on the page
    from a fresh deployment, a click on the button of a row of the list is
    never rejected.  It removes the row of that id from the table and no
    other, and keeps the order of the rest; the table has one row fewer,
    the sequence has not moved, and the page then holds a listing of the
    new table, in which the row no longer is. *)
Theorem X13_button_deletes_the_row
    (h : list (Z * PageEvent)) (now : Z) (r : Row) :
  let w := at_time now (session h world0) in
  In r (tasks w) ->
  exists task,
    shown r = Some task /\
    let res := onClick_button (tr task) w in
    fst res = Ok tt /\
    rows_of (store (snd res)) =
      filter (fun x => negb (id x =? id r)) (rows_of (store w)) /\
    (forall x, In x (rows_of (store (snd res))) <->
               In x (rows_of (store w)) /\ id x <> id r) /\
    List.length (rows_of (store w)) = S (List.length (rows_of (store (snd res)))) /\
    seq_of (store (snd res)) = seq_of (store w) /\
    admissible_rows (rows_of (store (snd res))) (tasks (snd res)) /\
    (forall x, In x (tasks (snd res)) -> id x <> id r) /\
    ~ In r (tasks (snd res)).
Proof.
  intros w Hr.
  destruct (session_world0_ok h) as [Hok Htasks].
  assert (Hokw : store_ok (store w)) by exact Hok.
  assert (Hlisted : In r (listing (store w))).
  { cbn [w at_time store tasks] in *. now rewrite <- Htasks. }
  destruct (listed_row_stored _ r Hokw Hlisted) as (r0 & Hr0 & Hparsed & Hvalid & _).
  destruct (shown_valid r Hvalid) as (st & ti & Hst & Hti & Hshown).
  assert (Hid : id r = id r0) by now rewrite Hparsed.
  pose proof Hokw as ((Hsorted & _) & _).
  assert (Hnd : NoDup (map id (rows_of (store w)))) by now apply sorted_lt_NoDup.
  exists (Task.mk (number_text (id r)) ti st). split; [exact Hshown|].
  rewrite Hid. intros res.
  destruct (button_effect w r0 ti st Hokw Hr0) as (Hout & Hstore & Hlist).
  fold res in Hout, Hstore, Hlist.
  assert (Hiff : forall x, In x (rows_of (store (snd res))) <->
                           In x (rows_of (store w)) /\ id x <> id r0).
  { intros x. rewrite Hstore. cbn [rows_of rows]. rewrite filter_In.
    now rewrite negb_true_iff, Z.eqb_neq. }
  assert (Hgone : forall x, In x (tasks (snd res)) -> id x <> id r0).
  { intros x Hx. rewrite Hlist in Hx.
    destruct (listing_in _ x Hx) as (x0 & Hx0 & ->).
    apply Hiff in Hx0. cbn [parse_row id]. apply Hx0. }
  split; [exact Hout|]. split; [now rewrite Hstore|]. split; [exact Hiff|].
  split; [|split; [|split; [|split]]].
  - rewrite Hstore. cbn [rows_of rows]. apply filter_one_less; [exact Hnd|].
    now exists r0.
  - now rewrite Hstore.
  - rewrite Hlist. apply listing_admissible.
  - exact Hgone.
  - intros Hin. apply (Hgone r Hin). exact Hid.
Qed.

Lemma X13_button_witness :
  exists task,
    shown (mkRow 1 10 (Some "IN_PROGRESS") (Some "Buy milk")) = Some task /\
    rows_of (store (snd (onClick_button (tr task)
                           (at_time 40000 (session sample_session world0)))))
    = [mkRow 2 30000 (Some "IN_PROGRESS") (Some "Walk")].
Proof.
  destruct (X13_button_deletes_the_row sample_session 40000
              (mkRow 1 10 (Some "IN_PROGRESS") (Some "Buy milk")))
    as (task & Hshown & _ & Hrows & _).
  - vm_compute. right. left. reflexivity.
  - exists task. split; [exact Hshown|]. rewrite Hrows. vm_compute. reflexivity.
Defined.

(** **** Typing and submitting *)

Lemma session_app (h1 h2 : list (Z * PageEvent)) (w : World) :
  session (h1 ++ h2) w = session h2 (session h1 w).
Proof.
  revert w. induction h1 as [|[now e] h1 IH]; intros w; simpl; [reflexivity|].
  apply IH.
Qed.

Lemma typing_effect (typed : list (Z * string)) (w : World) :
  let w' := session (map (fun x => (fst x, Change (snd x))) typed) w in
  store w' = store w /\ tasks w' = tasks w.
Proof.
  cbv zeta. revert w. induction typed as [|[now v] typed IH]; intros w.
  - now split.
  - cbn [map fst snd session handle].
    destruct (IH (snd (onChange v (at_time now w)))) as [-> ->]. now split.
Qed.

Lemma submit_effect (w : World) :
  ids_ok (store w) ->
  let res := handleSubmit w in
  let n := seq_of (store w) in
  match title_in (newTaskTitle w) with
  | Ok ti =>
      n < int4_max ->
      fst res = Ok tt /\
      store (snd res) =
        Some (mkTable (rows_of (store w) ++
                         [mkRow (n + 1) (clock w) (Some "IN_PROGRESS") (Some ti)])
                      (n + 1)) /\
      tasks (snd res) = listing (store (snd res)) /\
      newTaskTitle (snd res) = ""
  | Throw e =>
      fst res = Throw e /\
      store (snd res) = ensure (store w) /\
      tasks (snd res) = tasks w /\
      newTaskTitle (snd res) = newTaskTitle w
  end.
Proof.
  intros Hids. cbv zeta.
  destruct (handleSubmit_effect w) as (Hout & Hstore & _ & Htasks & Htitle).
  unfold outcome, step in *. cbn [stmt_of exec] in *.
  rewrite insert_cases, (next_id_is_new _ Hids) in *.
  destruct (title_in (newTaskTitle w)) as [ti|e]; cbn [fst snd void] in *.
  - intros Hseq.
    destruct (Z.leb_spec int4_max (seq_of (store w))) as [Hend|_]; [lia|].
    cbn [fst snd void] in *.
    split; [exact Hout|]. split; [exact Hstore|]. split; [|exact Htitle].
    now rewrite Htasks, Hstore.
  - now repeat split.
Qed.

(** X14.  Typing and submitting.  Typing changes neither the table nor the
    list, however much is typed; a submit sends the text typed last.  When
    the store accepts that text (it holds no U+0000 and fits the column,
    cut to 1024 characters when only spaces follow) and the sequence of
    ids is not at its end, one row with that title is added at the end of
    the table, the page holds a listing of the new table and the field is
    emptied; a second submit with nothing typed in between is accepted too
    and adds a row with the empty title.  When the store rejects the text,
    the table and the list are as they were and the field keeps the text;
    a second submit is rejected in the same way. *)
Theorem X14_typing_and_submitting
    (h : list (Z * PageEvent)) (typed : list (Z * string))
    (t0 t1 t2 : Z) (v : string) :
  let w := session h world0 in
  let wc := session (map (fun x => (fst x, Change (snd x))) typed
                       ++ [(t0, Change v)]) w in
  let res1 := handleSubmit (at_time t1 wc) in
  let res2 := handleSubmit (at_time t2 (snd res1)) in
  let n := seq_of (store w) in
  store wc = store w /\
  tasks wc = tasks w /\
  newTaskTitle wc = v /\
  match title_in v with
  | Ok ti =>
      n + 2 <= int4_max ->
      fst res1 = Ok tt /\
      rows_of (store (snd res1)) =
        rows_of (store w) ++ [mkRow (n + 1) t1 (Some "IN_PROGRESS") (Some ti)] /\
      admissible_rows (rows_of (store (snd res1))) (tasks (snd res1)) /\
      newTaskTitle (snd res1) = "" /\
      fst res2 = Ok tt /\
      rows_of (store (snd res2)) =
        rows_of (store (snd res1)) ++ [mkRow (n + 2) t2 (Some "IN_PROGRESS") (Some "")]
  | Throw e =>
      fst res1 = Throw e /\
      rows_of (store (snd res1)) = rows_of (store w) /\
      tasks (snd res1) = tasks w /\
      newTaskTitle (snd res1) = v /\
      fst res2 = Throw e /\
      rows_of (store (snd res2)) = rows_of (store w) /\
      tasks (snd res2) = tasks w /\
      newTaskTitle (snd res2) = v
  end.
Proof.
  intros w wc res1 res2 n.
  destruct (session_world0_ok h) as [(Hids & _) _].
  change (session h world0) with w in Hids.
  assert (Hwc : store wc = store w /\ tasks wc = tasks w /\ newTaskTitle wc = v).
  { unfold wc. rewrite session_app.
    destruct (typing_effect typed w) as [Hs Ht]. cbv zeta in Hs, Ht.
    simpl. now rewrite Hs, Ht. }
  destruct Hwc as (Hs & Ht & Hv).
  split; [exact Hs|]. split; [exact Ht|]. split; [exact Hv|].
  assert (Hids1 : ids_ok (store (at_time t1 wc))).
  { cbn [at_time store]. now rewrite Hs. }
  pose proof (submit_effect (at_time t1 wc) Hids1) as H1.
  cbv zeta in H1. fold res1 in H1.
  cbn [at_time store clock newTaskTitle tasks] in H1. rewrite Hs, Ht, Hv in H1.
  fold n in H1.
  destruct (title_in v) as [ti|e] eqn:E.
  - intros Hseq.
    destruct H1 as (Hout1 & Hstore1 & Htasks1 & Htitle1); [lia|].
    assert (Hids2 : ids_ok (store (at_time t2 (snd res1)))).
    { cbn [at_time store].
      pose proof (step_ids_ok t1 (AddTask v) (store (at_time t1 wc)) Hids1) as Hstep.
      destruct (handleSubmit_effect (at_time t1 wc)) as (_ & Hst & _).
      fold res1 in Hst. cbn [at_time store clock newTaskTitle] in Hst, Hstep.
      rewrite Hv in Hst. now rewrite Hst. }
    pose proof (submit_effect (at_time t2 (snd res1)) Hids2) as H2.
    cbv zeta in H2. fold res2 in H2.
    cbn [at_time store clock newTaskTitle tasks] in H2.
    rewrite Htitle1, Hstore1 in H2. cbn [rows_of rows seq_of last_value] in H2.
    change (title_in "") with (Ok (A := string) "") in H2.
    destruct H2 as (Hout2 & Hstore2 & _); [lia|].
    split; [exact Hout1|]. split; [now rewrite Hstore1|]. split.
    { rewrite Htasks1. apply listing_admissible. }
    split; [exact Htitle1|]. split; [exact Hout2|].
    rewrite Hstore2, Hstore1. cbn [rows_of rows].
    now replace (n + 1 + 1) with (n + 2) by lia.
  - destruct H1 as (Hout1 & Hstore1 & Htasks1 & Htitle1).
    assert (Hids2 : ids_ok (store (at_time t2 (snd res1)))).
    { cbn [at_time store]. rewrite Hstore1. now apply ensure_ids_ok. }
    pose proof (submit_effect (at_time t2 (snd res1)) Hids2) as H2.
    cbv zeta in H2. fold res2 in H2.
    cbn [at_time store clock newTaskTitle tasks] in H2.
    rewrite Htitle1, E in H2.
    destruct H2 as (Hout2 & Hstore2 & Htasks2 & Htitle2).
    split; [exact Hout1|]. split; [now rewrite Hstore1, ensure_rows|].
    split; [exact Htasks1|]. split; [exact Htitle1|]. split; [exact Hout2|].
    split; [now rewrite Hstore2, ensure_rows, Hstore1, ensure_rows|].
    split; [now rewrite Htasks2|exact Htitle2].
Qed.
